(** * oblox-fastapi-auth: configuration, wire schemas, user model and
      application lifespan, embedded in Rocq.

    One module per source file:
    - [SettingsPy]   <- src/settings.py
    - [SchemasUser]  <- src/schemas/user.py
    - [ModelsUser]   <- src/models/user.py
    - [MainPy]       <- src/main.py
    The services the specification describes but whose code lives outside
    src/ (password login, user directory, token refresh) are modelled from
    the specification in modules of their own, and say so. *)

From Stdlib Require Import ZArith NArith Ascii String List Bool Lia.
From stdpp Require Import base option list strings gmap.
Import ListNotations.

Local Open Scope string_scope.
Local Open Scope Z_scope.

(** * Python runtime notions shared by the modules *)

Module Py.

(** A call either returns a value or raises an exception value. *)
Inductive outcome (E A : Type) : Type :=
| Return (a : A)
| Raise (e : E).
Arguments Return {E A} a.
Arguments Raise {E A} e.

(** [str.lower()] restricted to ASCII letters. *)
Definition lower_ascii (c : ascii) : ascii :=
  let n := nat_of_ascii c in
  if (Nat.leb 65 n && Nat.leb n 90)%bool then ascii_of_nat (n + 32) else c.

Fixpoint lower (s : string) : string :=
  match s with
  | EmptyString => EmptyString
  | String c r => String (lower_ascii c) (lower r)
  end.

(** [str.endswith] for a one-character suffix. *)
Fixpoint ends_with_char (c : ascii) (s : string) : bool :=
  match s with
  | EmptyString => false
  | String d EmptyString => if Ascii.eqb c d then true else false
  | String _ r => ends_with_char c r
  end.

(** [os.path.join(a, b)] for a relative second component. *)
Definition path_join (a b : string) : string :=
  match a with
  | EmptyString => b
  | _ => if ends_with_char "/" a then a ++ b else a ++ "/" ++ b
  end.

(** [s.split(sep)] for a one-character separator. *)
Fixpoint str_split (sep : ascii) (s : string) : list string :=
  match s with
  | EmptyString => [EmptyString]
  | String c r =>
      if Ascii.eqb c sep then EmptyString :: str_split sep r
      else match str_split sep r with
           | p :: ps => String c p :: ps
           | [] => [String c EmptyString]
           end
  end.

(** How many times the character stands at the start of the string. *)
Fixpoint leading (c : ascii) (s : string) : nat :=
  match s with
  | String d r => if Ascii.eqb c d then S (leading c r) else 0
  | EmptyString => 0
  end.

(** A [pathlib.PurePosixPath]: its root and its components. *)
Record PurePath := {
  root : string;
  parts : list string
}.

(** [PurePosixPath(s)]: the root is "/" for a path that starts with
    slashes, "//" when they are exactly two; empty components and "."
    components are dropped. *)
Definition path_of_str (s : string) : PurePath :=
  {| root := match leading "/" s with
             | O => ""
             | 2%nat => "//"
             | _ => "/"
             end;
     parts := List.filter
                (fun x => negb (String.eqb x "") && negb (String.eqb x "."))
                (str_split "/" s) |}.

(** [str(p)]. *)
Definition str_of_path (p : PurePath) : string :=
  match root p, parts p with
  | EmptyString, [] => "."
  | r, ps => r ++ String.concat "/" ps
  end.

(** [p / s]: the components of [s] after those of [p], unless [s] has a
    root and stands for itself. *)
Definition truediv (p : PurePath) (s : string) : PurePath :=
  let q := path_of_str s in
  match root q with
  | EmptyString => {| root := root p; parts := parts p ++ parts q |}
  | _ => q
  end.

(** [base64.urlsafe_b64encode]. *)
Definition b64_alphabet : list ascii :=
  list_ascii_of_string
    "ABCDEFGHIJKLMNOPQRSTUVWXYZabcdefghijklmnopqrstuvwxyz0123456789-_".

Definition b64_char (n : N) : ascii :=
  nth (N.to_nat n) b64_alphabet "="%char.

Fixpoint urlsafe_b64encode (bs : list Byte.byte) : string :=
  match bs with
  | [] => EmptyString
  | [a] =>
      let a := Byte.to_N a in
      String (b64_char (N.shiftr a 2))
        (String (b64_char (N.shiftl (N.land a 3) 4)) "==")
  | [a; b] =>
      let a := Byte.to_N a in
      let b := Byte.to_N b in
      String (b64_char (N.shiftr a 2))
        (String (b64_char (N.lor (N.shiftl (N.land a 3) 4) (N.shiftr b 4)))
           (String (b64_char (N.shiftl (N.land b 15) 2)) "="))
  | a :: b :: c :: rest =>
      let a := Byte.to_N a in
      let b := Byte.to_N b in
      let c := Byte.to_N c in
      String (b64_char (N.shiftr a 2))
        (String (b64_char (N.lor (N.shiftl (N.land a 3) 4) (N.shiftr b 4)))
           (String (b64_char (N.lor (N.shiftl (N.land b 15) 2) (N.shiftr c 6)))
              (String (b64_char (N.land c 63)) (urlsafe_b64encode rest))))
  end.

End Py.

(** * pydantic: validation results *)

Module Pydantic.
Import Py.

(** The error types of pydantic-core that occur, and [TimeZoneName], the
    custom error of [pydantic_extra_types.timezone_name]. *)
Inductive ErrorType :=
| missing | string_type | int_parsing | bool_parsing | literal_error
| value_error | model_type | TimeZoneName.

(** A line of a [ValidationError]: the field and what went wrong there.
    A field that fails is given one line; where pydantic reports a field
    once for every member of a [Union] it tried, the line stands for
    them. *)
Definition ErrorDetails : Type := string * ErrorType.

(** A validated value, or the [ValidationError] with all its lines. *)
Definition Validated (A : Type) : Type := outcome (list ErrorDetails) A.

Definition vmap {A B} (f : A -> B) (x : Validated A) : Validated B :=
  match x with
  | Return a => Return (f a)
  | Raise e => Raise e
  end.

(** Validation goes on after a failure and reports every failing field. *)
Definition vap {A B} (f : Validated (A -> B)) (x : Validated A) : Validated B :=
  match f, x with
  | Return g, Return a => Return (g a)
  | Return _, Raise e => Raise e
  | Raise e, Return _ => Raise e
  | Raise e1, Raise e2 => Raise (e1 ++ e2)%list
  end.

Notation "f <$$> x" := (vmap f x) (at level 61, left associativity).
Notation "f <**> x" := (vap f x) (at level 61, left associativity).

End Pydantic.

(** * src/settings.py *)

Module SettingsPy.
Import Py Pydantic.

(** ** What the process sees from outside *)

(** The external configuration of a run: the process environment in the
    order [os.environ] lists it, the dotenv files on disk by path (already
    split into name/value lines by python-dotenv; the lines that name a
    setting are what is read from them: a file with a line that names no
    setting is outside what is modelled), and the directory holding
    settings.py, as [Path(__file__).parent] spells it. *)
Record World := {
  os_environ : list (string * string);
  dotenv_files : gmap string (list (string * string));
  module_dir : string
}.

(** [os.getenv(name, default)]. *)
Fixpoint getenv_in (env : list (string * string)) (name : string)
  : option string :=
  match env with
  | [] => None
  | (k, v) :: r => if String.eqb k name then Some v else getenv_in r name
  end.

Definition os_getenv (w : World) (name default : string) : string :=
  match getenv_in (os_environ w) name with
  | Some v => v
  | None => default
  end.

(** [Fernet.generate_key()]: [base64.urlsafe_b64encode(os.urandom(32))].
    The argument is what [os.urandom(32)] handed out in this process. *)
Definition Fernet_generate_key (urandom32 : list Byte.byte) : string :=
  urlsafe_b64encode urandom32.

(** ** Import time: lines 10, 11 and the defaults computed in the class body *)

Record Imported := {
  ENVIRONMENT : string;
  BASE_DIR : string;
  encryption_key_default : string;
  templates_dir_default : string;
  env_file : string
}.

Definition import_module (w : World) (urandom32 : list Byte.byte) : Imported :=
  let environment := os_getenv w "ENVIRONMENT" "dev" in
  let base_dir := module_dir w in
  {| ENVIRONMENT := environment;
     BASE_DIR := base_dir;
     encryption_key_default := Fernet_generate_key urandom32;
     templates_dir_default := path_join base_dir "templates";
     env_file := str_of_path (truediv (path_of_str base_dir)
                                      ("." ++ environment ++ ".env")) |}.

(** ** pydantic validation of one field *)

(** The string conversions of pydantic-core, which is library code. *)
Class PydanticCore := {
  int_of_str : string -> option Z;
  bool_of_str : string -> option bool;
  is_timezone_name : string -> bool
}.

Inductive EmailBackend := smtp | azure | console.

Definition email_backend_of_str (v : string) : option EmailBackend :=
  if String.eqb v "smtp" then Some smtp
  else if String.eqb v "azure" then Some azure
  else if String.eqb v "console" then Some console
  else None.

Record Settings := {
  auth_database_url : string;
  auth_timezone : string;
  project_name : string;
  jwt_secret_key : string;
  jwt_algorithm : string;
  jwt_access_token_expire_minutes : Z;
  jwt_refresh_token_expire_minutes : Z;
  jwt_audience : string;
  encryption_key : string;
  email_backend : EmailBackend;
  templates_dir : string;
  smtp_host : option string;
  smtp_port : option Z;
  smtp_username : option string;
  smtp_password : option string;
  smtp_from : option string;
  smtp_use_tls : bool;
  smtp_timeout : Z;
  azure_email_service_name : option string;
  azure_email_service_endpoint : option string;
  azure_email_service_api_key : option string;
  custom_user_model : option string;
  custom_user_profile_model : option string;
  passwordless_login_enabled : bool;
  email_verification_required : bool
}.

Section Construction.
Context `{PydanticCore}.
Variable imp : Imported.
Variable w : World.

(** pydantic-settings matches names without regard to case: it lowers
    every name it reads, a later entry replacing an earlier one. *)
Definition lowered (kvs : list (string * string)) : gmap string string :=
  foldl (fun m kv => <[lower (fst kv) := snd kv]> m) ∅ kvs.

Definition env_vars : gmap string string := lowered (os_environ w).

Definition dotenv_vars : gmap string string :=
  match dotenv_files w !! env_file imp with
  | Some kvs => lowered kvs
  | None => ∅
  end.

(** Environment variables win over the dotenv file. *)
Definition raw_value (field : string) : option string :=
  match env_vars !! field with
  | Some v => Some v
  | None => dotenv_vars !! field
  end.

(** A field with no default: absent from every source is an error. *)
Definition required {A} (parse : string -> option A) (ty : ErrorType)
    (field : string) : Validated A :=
  match raw_value field with
  | None => Raise [(field, missing)]
  | Some v =>
      match parse v with
      | Some a => Return a
      | None => Raise [(field, ty)]
      end
  end.

(** A field with a default: the default is taken as it is, unvalidated. *)
Definition defaulted {A} (parse : string -> option A) (ty : ErrorType)
    (field : string) (default : A) : Validated A :=
  match raw_value field with
  | None => Return default
  | Some v =>
      match parse v with
      | Some a => Return a
      | None => Raise [(field, ty)]
      end
  end.

Definition as_str (v : string) : option string := Some v.
Definition as_opt_str (v : string) : option (option string) := Some (Some v).
Definition as_int (v : string) : option Z := int_of_str v.
Definition as_opt_int (v : string) : option (option Z) :=
  match int_of_str v with
  | Some n => Some (Some n)
  | None => None
  end.
Definition as_bool (v : string) : option bool := bool_of_str v.
Definition as_timezone (v : string) : option string :=
  if is_timezone_name v then Some v else None.

(** [Settings()]: every field from the sources, else from its default. *)
Definition Settings_init : Validated Settings :=
  Build_Settings
    <$$> required as_str value_error "auth_database_url"
    <**> defaulted as_timezone TimeZoneName "auth_timezone" "UTC"
    <**> defaulted as_str value_error "project_name" "fastapi-auth"
    <**> defaulted as_str value_error "jwt_secret_key"
           "sample-secret-key-dont-use-in-production"
    <**> defaulted as_str value_error "jwt_algorithm" "HS256"
    <**> defaulted as_int int_parsing "jwt_access_token_expire_minutes" 30
    <**> defaulted as_int int_parsing "jwt_refresh_token_expire_minutes"
           (60 * 24 * 30)
    <**> defaulted as_str value_error "jwt_audience" "fastapi-auth"
    <**> defaulted as_str value_error "encryption_key"
           (encryption_key_default imp)
    <**> defaulted email_backend_of_str literal_error "email_backend" smtp
    <**> defaulted as_str value_error "templates_dir"
           (templates_dir_default imp)
    <**> defaulted as_opt_str value_error "smtp_host" None
    <**> defaulted as_opt_int int_parsing "smtp_port" None
    <**> defaulted as_opt_str value_error "smtp_username" None
    <**> defaulted as_opt_str value_error "smtp_password" None
    <**> defaulted as_opt_str value_error "smtp_from" None
    <**> defaulted as_bool bool_parsing "smtp_use_tls" true
    <**> defaulted as_int int_parsing "smtp_timeout" 10
    <**> defaulted as_opt_str value_error "azure_email_service_name" None
    <**> defaulted as_opt_str value_error "azure_email_service_endpoint" None
    <**> defaulted as_opt_str value_error "azure_email_service_api_key" None
    <**> defaulted as_opt_str value_error "custom_user_model" None
    <**> defaulted as_opt_str value_error "custom_user_profile_model" None
    <**> defaulted as_bool bool_parsing "passwordless_login_enabled" false
    <**> defaulted as_bool bool_parsing "email_verification_required" false.

(** [@lru_cache get_settings()]: the first successful [Settings()] is
    kept and handed out again; a raised error is not cached. *)
Definition get_settings (cache : option Settings)
  : Validated Settings * option Settings :=
  match cache with
  | Some s => (Return s, cache)
  | None =>
      match Settings_init with
      | Return s => (Return s, Some s)
      | Raise e => (Raise e, None)
      end
  end.

End Construction.

(** One run of the program up to its first [get_settings()] call: import
    settings.py with this run's random bytes, then build the settings. *)
Definition startup `{PydanticCore} (w : World) (urandom32 : list Byte.byte)
  : Validated Settings :=
  fst (get_settings (import_module w urandom32) w None).

(** What the external configuration says about a field, if anything.  The
    random bytes of a run play no part in it. *)
Definition configured (w : World) (field : string) : option string :=
  raw_value (import_module w []) w field.

(** The lifetimes the token service reads, in minutes. *)
Definition access_lifetime_minutes (s : Settings) : Z :=
  jwt_access_token_expire_minutes s.
Definition refresh_lifetime_minutes (s : Settings) : Z :=
  jwt_refresh_token_expire_minutes s.

Definition minutes_per_day : Z := 60 * 24.

End SettingsPy.


(** * src/schemas/user.py *)

Module SchemasUser.
Import Py Pydantic.

(** The values a decoded request body is made of. *)
#[warnings="-register-all"]
Inductive json :=
| JNull
| JBool (b : bool)
| JInt (n : Z)
| JStr (s : string)
| JList (items : list json)
| JDict (members : list (string * json)).

(** The members of an object as a dict: a repeated name keeps its last
    value, as [json.loads] does. *)
Definition as_dict (members : list (string * json)) : gmap string json :=
  foldl (fun m kv => <[fst kv := snd kv]> m) ∅ members.

(** A field annotated [str] and given no default. *)
Definition str_field (d : gmap string json) (name : string) : Validated string :=
  match d !! name with
  | None => Raise [(name, missing)]
  | Some (JStr s) => Return s
  | Some _ => Raise [(name, string_type)]
  end.

(** A field annotated [str | None] and given no default: [None] is a valid
    value for it, but the key has to be there. *)
Definition nullable_str_field (d : gmap string json) (name : string)
  : Validated (option string) :=
  match d !! name with
  | None => Raise [(name, missing)]
  | Some JNull => Return None
  | Some (JStr s) => Return (Some s)
  | Some _ => Raise [(name, string_type)]
  end.

(** [BaseModel.model_validate]: the input has to be an object; names the
    model does not declare are ignored. *)
Definition model_validate {A} (fields : gmap string json -> Validated A)
    (input : json) : Validated A :=
  match input with
  | JDict members => fields (as_dict members)
  | _ => Raise [("", model_type)]
  end.

Module UserPasswordLoginSchema.
Record t := { email : string; password : option string }.
Definition fields (d : gmap string json) : Validated t :=
  Build_t <$$> str_field d "email" <**> nullable_str_field d "password".
Definition validate : json -> Validated t := model_validate fields.
End UserPasswordLoginSchema.

Module UserSignupSchema.
Record t := {
  email : string;
  password : option string;
  name : option string;
  profile_pic : option string
}.
Definition fields (d : gmap string json) : Validated t :=
  Build_t <$$> str_field d "email" <**> nullable_str_field d "password"
          <**> nullable_str_field d "name"
          <**> nullable_str_field d "profile_pic".
Definition validate : json -> Validated t := model_validate fields.
End UserSignupSchema.

Module UserJWTResponseSchema.
Record t := { access_token : string; refresh_token : string }.
Definition fields (d : gmap string json) : Validated t :=
  Build_t <$$> str_field d "access_token" <**> str_field d "refresh_token".
Definition validate : json -> Validated t := model_validate fields.
End UserJWTResponseSchema.

Module UserSocialLoginSchema.
Record t := {
  provider : string;
  access_token : option string;
  code : option string
}.
Definition fields (d : gmap string json) : Validated t :=
  Build_t <$$> str_field d "provider" <**> nullable_str_field d "access_token"
          <**> nullable_str_field d "code".
Definition validate : json -> Validated t := model_validate fields.
End UserSocialLoginSchema.

Module UserSignupResponseSchema.
Record t := {
  access_token : option string;
  refresh_token : option string;
  message : string
}.
Definition fields (d : gmap string json) : Validated t :=
  Build_t <$$> nullable_str_field d "access_token"
          <**> nullable_str_field d "refresh_token"
          <**> str_field d "message".
Definition validate : json -> Validated t := model_validate fields.
End UserSignupResponseSchema.

(** The five schemas and, for each, its fields in declaration order with
    whether the annotation admits [None]. *)
Inductive schema :=
| PasswordLogin | Signup | JWTResponse | SocialLogin | SignupResponse.

Definition declared (sc : schema) : list (string * bool) :=
  match sc with
  | PasswordLogin => [("email", false); ("password", true)]
  | Signup => [("email", false); ("password", true); ("name", true);
               ("profile_pic", true)]
  | JWTResponse => [("access_token", false); ("refresh_token", false)]
  | SocialLogin => [("provider", false); ("access_token", true);
                    ("code", true)]
  | SignupResponse => [("access_token", true); ("refresh_token", true);
                       ("message", false)]
  end.

(** Whether validation of [input] against the schema goes through. *)
Definition is_return {E A} (r : outcome E A) : bool :=
  match r with Return _ => true | Raise _ => false end.

Definition accepts (sc : schema) (input : json) : bool :=
  match sc with
  | PasswordLogin => is_return (UserPasswordLoginSchema.validate input)
  | Signup => is_return (UserSignupSchema.validate input)
  | JWTResponse => is_return (UserJWTResponseSchema.validate input)
  | SocialLogin => is_return (UserSocialLoginSchema.validate input)
  | SignupResponse => is_return (UserSignupResponseSchema.validate input)
  end.

(** What a declared field asks of the decoded object: the key is there,
    with a string, or with [None] where the annotation admits it. *)
Definition field_ok (d : gmap string json) (fld : string * bool) : bool :=
  match d !! fst fld with
  | Some (JStr _) => true
  | Some JNull => snd fld
  | _ => false
  end.

Definition payload_ok (sc : schema) (input : json) : bool :=
  match input with
  | JDict members => forallb (field_ok (as_dict members)) (declared sc)
  | _ => false
  end.

End SchemasUser.


(** * src/models/user.py *)

Module ModelsUser.
Import Py.

(** [Role] is declared in another file of the package; a user row only
    refers to it, here by the role's name. *)
Definition Role : Type := string.

(** A row of [auth_users] as the database holds it.  The primary key comes
    from [models.base.Base], which is outside src: [id] stands for the
    "unique opaque identifier" the specification gives a User. *)
Record User := {
  id : nat;
  name : option string;
  email : string;
  profile_pic : option string;
  password : option string;
  roles : list Role;
  is_staff : bool
}.

(** The keyword arguments of [User(...)]: each attribute is given or not. *)
Record UserArgs := {
  arg_name : option string;
  arg_email : option string;
  arg_profile_pic : option string;
  arg_password : option string;
  arg_is_staff : option bool
}.

(** The table: its rows in insertion order and the next primary key. *)
Record Table := {
  rows : list User;
  next_id : nat
}.

Definition empty_table : Table := {| rows := []; next_id := 1 |}.

(** What the database answers when a constraint of the table is violated. *)
Inductive IntegrityError :=
| NotNullViolation (column : string)
| UniqueViolation (column : string).

Definition email_taken (e : string) (rs : list User) : bool :=
  existsb (fun u => String.eqb (email u) e) rs.

(** [mapped_column(Boolean, nullable=False, default=False)]: the column
    default is used when the attribute was not given. *)
Definition is_staff_default : bool := false.

(** [String(255)]: the width declared for [name], [email], [profile_pic]
    and [password].  Whether a wider value is refused is up to the database
    (PostgreSQL refuses it, SQLite stores it). *)
Definition column_width : nat := 255.

(** INSERT of a new [User(...)] at flush, as far as the constraints and
    the default of the class decide it: [email] is [nullable=False] and
    [unique=True]; [name], [profile_pic] and [password] are
    [nullable=True]; [is_staff] has a default; a new row has no roles yet.
    The declared width is not checked here. *)
Definition insert (a : UserArgs) (t : Table) : outcome IntegrityError (User * Table) :=
  match arg_email a with
  | None => Raise (NotNullViolation "email")
  | Some e =>
      if email_taken e (rows t) then Raise (UniqueViolation "email")
      else
        let u := {| id := next_id t;
                    name := arg_name a;
                    email := e;
                    profile_pic := arg_profile_pic a;
                    password := arg_password a;
                    roles := [];
                    is_staff := match arg_is_staff a with
                                | Some b => b
                                | None => is_staff_default
                                end |} in
        Return (u, {| rows := rows t ++ [u]; next_id := S (next_id t) |})
  end.

End ModelsUser.


(** * src/main.py *)

Module MainPy.
Import Py.

(** The engine of [database.db]: a pool that is live until disposed. *)
Inductive EngineState := Live | Disposed.

Section Lifespan.
(** The exceptions of the program and the state of the rest of the
    application are left open. *)
Variable Exn : Type.
Variable App : Type.

Record Runtime := {
  engine : EngineState;
  dispose_calls : nat;
  app : App
}.

(** A piece of the program: from a runtime state it returns or raises, and
    leaves a runtime state behind. *)
Definition Action (A : Type) : Type := Runtime -> outcome Exn A * Runtime.

(** [await engine.dispose()]. *)
Definition engine_dispose : Action unit :=
  fun r => (Return tt, {| engine := Disposed;
                          dispose_calls := S (dispose_calls r);
                          app := app r |}).

(** [try: body finally: handler]: the handler runs however the body ends;
    then the body's outcome stands, unless the handler itself raised. *)
Definition try_finally {A} (body : Action A) (handler : Action unit) : Action A :=
  fun r =>
    let (res, r1) := body r in
    match handler r1 with
    | (Return _, r2) => (res, r2)
    | (Raise e, r2) => (Raise e, r2)
    end.

(** [lifespan(app)] under [@asynccontextmanager]: the generator stops at
    [yield] while the application runs; when the application is over the
    generator is resumed there, or the exception that ended the application
    is thrown into it there.  [serving] is what happens at the [yield]. *)
Definition lifespan (serving : Action unit) : Action unit :=
  try_finally serving engine_dispose.

End Lifespan.

Arguments engine {App} r.
Arguments dispose_calls {App} r.
Arguments app {App} r.
Arguments Build_Runtime {App} engine dispose_calls app.
Arguments engine_dispose {Exn App} r.
Arguments try_finally {Exn App A} body handler r.
Arguments lifespan {Exn App} serving r.

End MainPy.


(** * The failure taxonomy of the specification (section 7) *)

Module Failures.

Inductive TokenErrorKind := Malformed | Expired | SignatureInvalid | KindMismatch.

Inductive Failure :=
| InvalidCredentials
| ProviderError
| UnverifiedIdentity
| CodeExpired
| CodeInvalid
| TokenError (k : TokenErrorKind)
| ReuseDetected
| Revoked
| DecryptionError
| DuplicateEmail.

End Failures.

(** * Login Strategy Dispatcher, password strategy (specification, section 4.3) *)

Module PasswordLogin.
Import Py Failures ModelsUser.

Section Strategy.
(** The Credential Verifier's [verify(plaintext_password, stored_hash)]. *)
Variable verify : string -> string -> bool.

(** Modelled from the spec: "normalized email", the case-normalised form
    of the address; the directory's code is outside src. *)
Definition normalize_email (e : string) : string := lower e.

(** Modelled from the spec: [findByEmail] of the User Directory; the
    directory's code is outside src. *)
Definition find_by_email (e : string) (t : Table) : option User :=
  find (fun u => String.eqb (email u) e) (rows t).

(** Modelled from the spec: "Looks up User by normalized email; fails with
    InvalidCredentials if absent or password hash missing or verification
    fails.  On success returns the User."  The strategy's code is outside
    src. *)
Definition password_login (t : Table) (email_in password_in : string)
  : outcome Failure User :=
  match find_by_email (normalize_email email_in) t with
  | None => Raise InvalidCredentials
  | Some u =>
      match password u with
      | None => Raise InvalidCredentials
      | Some stored_hash =>
          if verify password_in stored_hash then Return u
          else Raise InvalidCredentials
      end
  end.

End Strategy.

End PasswordLogin.

(** * User Directory (specification, sections 3 and 4.5) *)

Module UserDirectory.
Import Py Failures ModelsUser PasswordLogin.

(** Modelled from the spec: the attributes a directory [update] may assign
    ("mutated on profile update, password change"): [None] leaves the
    attribute alone, [Some v] writes [v], where [v] may be null for an
    optional attribute.  The directory's code is outside src. *)
Record UserChanges := {
  set_name : option (option string);
  set_email : option (option string);
  set_profile_pic : option (option string);
  set_password : option (option string);
  set_is_staff : option bool
}.

(** Modelled from the spec: how a directory operation fails: with a
    failure of the taxonomy of section 7 ([DuplicateEmail]), with the
    refusal of the table that src/models/user.py declares (a null email),
    with a value wider than its column, or because no user has the
    identifier.  The directory's code is outside src. *)
Inductive Fault :=
| Failed (f : Failure)
| Refused (e : IntegrityError)
| TooLong (column : string)
| NoSuchUser.

(** Modelled from the spec: an attribute is written when the change gives
    it a value and kept otherwise; the directory's code is outside src. *)
Definition assign {A} (change : option A) (old : A) : A :=
  match change with
  | Some v => v
  | None => old
  end.

(** Modelled from the spec: the record after a profile update, its
    identifier and roles kept; the directory's code is outside src. *)
Definition apply_changes (c : UserChanges) (e : string) (u : User) : User :=
  {| id := id u;
     name := assign (set_name c) (name u);
     email := e;
     profile_pic := assign (set_profile_pic c) (profile_pic u);
     password := assign (set_password c) (password u);
     roles := roles u;
     is_staff := assign (set_is_staff c) (is_staff u) |}.

(** Modelled from the spec: the record with one more role in its "set of
    Role associations": a role the user has already is not added again.
    The directory's code and the Role model are outside src. *)
Definition with_role (r : Role) (u : User) : User :=
  {| id := id u;
     name := name u;
     email := email u;
     profile_pic := profile_pic u;
     password := password u;
     roles := if existsb (String.eqb r) (roles u) then roles u
              else roles u ++ [r];
     is_staff := is_staff u |}.

(** Modelled from the spec: a record is addressed by its "unique opaque
    identifier"; the directory's code is outside src. *)
Definition find_row (i : nat) (rs : list User) : option User :=
  find (fun u => Nat.eqb (id u) i) rs.

(** Modelled from the spec: the stored records with the one of the given
    identifier replaced; the directory's code is outside src. *)
Definition replace_row (u' : User) (rs : list User) : list User :=
  map (fun u => if Nat.eqb (id u) (id u') then u' else u) rs.

(** Modelled from the spec: the stored records but the one of the given
    identifier; the directory's code is outside src. *)
Definition others (i : nat) (rs : list User) : list User :=
  List.filter (fun u => negb (Nat.eqb (id u) i)) rs.

(** Modelled from the spec: whether a value is as wide as the
    [String(255)] of its column allows, null being no value; the
    directory's code is outside src. *)
Definition fits (v : option string) : bool :=
  match v with
  | Some s => Nat.leb (String.length s) column_width
  | None => true
  end.

(** Modelled from the spec: the first text attribute of a record whose
    value is too wide for its column, if any; the directory's code is
    outside src. *)
Definition too_long (u : User) : option string :=
  if negb (fits (name u)) then Some "name"
  else if negb (fits (Some (email u))) then Some "email"
  else if negb (fits (profile_pic u)) then Some "profile_pic"
  else if negb (fits (password u)) then Some "password"
  else None.

(** Modelled from the spec: the email of a record after an update: the
    one it had, or the given one in its case-normalised form; null when
    the update sets it to null.  The directory's code is outside src. *)
Definition new_email (c : UserChanges) (u : User) : option string :=
  match set_email c with
  | None => Some (email u)
  | Some given => option_map normalize_email given
  end.

Section Directory.
(** Whether the database behind the directory enforces the declared
    width of a column. *)
Variable enforces_width : bool.

(** Modelled from the spec: the write of a record through the Session
    Boundary: a database that enforces the declared widths refuses a
    record with a value too wide.  The directory's code is outside src. *)
Definition store (u : User) (t' : Table) : outcome Fault (User * Table) :=
  match too_long u with
  | Some column =>
      if enforces_width then Raise (TooLong column) else Return (u, t')
  | None => Return (u, t')
  end.

(** Modelled from the spec: [create] of the User Directory.  The email is
    brought to its case-normalised form, the one [findByEmail] is asked
    for at login, and the record is inserted into the table of
    src/models/user.py; "email uniqueness is enforced at the directory
    boundary": an email that is stored already is [DuplicateEmail].  The
    directory's code is outside src. *)
Definition create (a : UserArgs) (t : Table) : outcome Fault (User * Table) :=
  match insert {| arg_name := arg_name a;
                  arg_email := option_map normalize_email (arg_email a);
                  arg_profile_pic := arg_profile_pic a;
                  arg_password := arg_password a;
                  arg_is_staff := arg_is_staff a |} t with
  | Return (u, t') => store u t'
  | Raise (UniqueViolation _) => Raise (Failed DuplicateEmail)
  | Raise e => Raise (Refused e)
  end.

(** Modelled from the spec: [update] of the User Directory, on the record
    with identifier [i].  A new email is case-normalised, may not be null
    and may not be the email of another record.  The directory's code is
    outside src. *)
Definition update (i : nat) (c : UserChanges) (t : Table)
  : outcome Fault (User * Table) :=
  match find_row i (rows t) with
  | None => Raise NoSuchUser
  | Some u =>
      match new_email c u with
      | None => Raise (Refused (NotNullViolation "email"))
      | Some e =>
          let u' := apply_changes c e u in
          if email_taken e (others i (rows t)) then Raise (Failed DuplicateEmail)
          else store u' {| rows := replace_row u' (rows t);
                           next_id := next_id t |}
      end
  end.

(** Modelled from the spec: [assignRole] of the User Directory, on the
    record with identifier [i].  The directory's code is outside src. *)
Definition assign_role (i : nat) (r : Role) (t : Table)
  : outcome Fault (User * Table) :=
  match find_row i (rows t) with
  | None => Raise NoSuchUser
  | Some u =>
      let u' := with_role r u in
      Return (u', {| rows := replace_row u' (rows t); next_id := next_id t |})
  end.

(** Modelled from the spec: the operations of the directory that write
    (section 4.5: [create], [update], [assignRole]); the directory's code
    is outside src. *)
Inductive Op :=
| Create (a : UserArgs)
| Update (i : nat) (c : UserChanges)
| AssignRole (i : nat) (r : Role).

(** Modelled from the spec: one operation carried out on the stored
    records; the directory's code is outside src. *)
Definition run (o : Op) (t : Table) : outcome Fault (User * Table) :=
  match o with
  | Create a => create a t
  | Update i c => update i c t
  | AssignRole i r => assign_role i r t
  end.

(** Modelled from the spec: the states of the directory: it starts empty
    and changes by the operations that succeed.  The directory's code is
    outside src. *)
Inductive reachable : Table -> Prop :=
| reachable_empty : reachable empty_table
| reachable_run t o u t' :
    reachable t -> run o t = Return (u, t') -> reachable t'.

End Directory.

(** Modelled from the spec: the emails and the identifiers that are
    stored; the directory's code is outside src. *)
Definition emails (t : Table) : list string := map email (rows t).
Definition ids (t : Table) : list nat := map id (rows t).

(** Modelled from the spec: the shape of the stored records (section 3):
    the email of a record is unique and case-normalised, its identifier is
    unique, and its roles are a set.  That the email is required and that
    the name, the picture and the password hash may be absent is in the
    types of [User].  The directory's code is outside src. *)
Definition shape (t : Table) : Prop :=
  List.NoDup (emails t) /\
  (forall u, In u (rows t) -> normalize_email (email u) = email u) /\
  List.NoDup (ids t) /\
  (forall u, In u (rows t) -> (id u < next_id t)%nat) /\
  (forall u, In u (rows t) -> List.NoDup (roles u)).

(** Modelled from the spec: what [create] is given for an account with
    nothing but an email, the optional attributes absent; the directory's
    code is outside src. *)
Definition only_email (e : string) : UserArgs :=
  {| arg_name := None;
     arg_email := Some e;
     arg_profile_pic := None;
     arg_password := None;
     arg_is_staff := None |}.

End UserDirectory.



(** * Token Service, refresh and rotation (specification, sections 3, 4.4, 5) *)

Module TokenService.
Import Py Failures.

Inductive Kind := access | refresh.

(** Modelled from the spec: the credential claim set of section 3,
    "subject, audience, issued-at, expiry, token kind, rotation
    identifier"; the token service's code is outside src. *)
Record Claims := {
  sub : nat;
  aud : string;
  iat : Z;
  exp : Z;
  kind : Kind;
  rot : nat
}.

(** Modelled from the spec: revocation tracking, the rotation identifiers
    already retired, with the source of fresh identifiers; the token
    service's code is outside src. *)
Record Store := {
  retired : gset nat;
  next_rot : nat
}.

(** Modelled from the spec: the points a [refresh] call passes through,
    one after each of the steps section 4.4 lists; the token service's code
    is outside src. *)
Inductive Call (Token : Type) :=
| Entered (t : Token)
| Verified (c : Claims)
| Swapped (c : Claims)
| Finished (r : outcome Failure (Token * Token)).
Arguments Entered {Token} t.
Arguments Verified {Token} c.
Arguments Swapped {Token} c.
Arguments Finished {Token} r.

Inductive Turn := First | Second.

Section Service.
(** Signing and verification under the server-held key, the configured
    audience and lifetimes, and the clock. *)
Variable Token : Type.
Variable sign : Claims -> Token.
Variable verify : Token -> Kind -> outcome TokenErrorKind Claims.
Variable audience : string.
Variable access_minutes refresh_minutes : Z.
Variable now : Z.

(** Modelled from the spec: [issue(user, roles) -> (access_token,
    refresh_token)], each token with a freshly generated rotation
    identifier; the token service's code is outside src. *)
Definition issue (user : nat) (st : Store) : (Token * Token) * Store :=
  let a := {| sub := user; aud := audience; iat := now;
              exp := now + 60 * access_minutes;
              kind := access; rot := next_rot st |} in
  let r := {| sub := user; aud := audience; iat := now;
              exp := now + 60 * refresh_minutes;
              kind := refresh; rot := S (next_rot st) |} in
  ((sign a, sign r),
   {| retired := retired st; next_rot := S (S (next_rot st)) |}).

(** Modelled from the spec: one atomic step of [refresh(refresh_token)]:
    "verifies the refresh token, checks its rotation identifier has not
    already been retired [...], retires the old identifier, issues a new
    pair", the check and the retirement being one "conditional atomic
    update keyed by rotation id" (section 5); the token service's code is
    outside src. *)
Definition call_step (st : Store) (c : Call Token) : Store * Call Token :=
  match c with
  | Entered t =>
      match verify t refresh with
      | Return cl => (st, Verified cl)
      | Raise k => (st, Finished (Raise (TokenError k)))
      end
  | Verified cl =>
      if decide (rot cl ∈ retired st) then (st, Finished (Raise ReuseDetected))
      else ({| retired := {[rot cl]} ∪ retired st; next_rot := next_rot st |},
            Swapped cl)
  | Swapped cl =>
      let (pair, st') := issue (sub cl) st in (st', Finished (Return pair))
  | Finished r => (st, Finished r)
  end.

(** [refresh] run alone: its three steps in a row. *)
Definition refresh_alone (t : Token) (st : Store)
  : option (outcome Failure (Token * Token)) * Store :=
  let (st1, c1) := call_step st (Entered t) in
  let (st2, c2) := call_step st1 c1 in
  let (st3, c3) := call_step st2 c2 in
  (match c3 with Finished r => Some r | _ => None end, st3).

(** Modelled from the spec: two calls in flight over one store (section
    5, "many concurrent logical sessions" sharing revocation tracking); the
    scheduler picks who moves.  The token service's code is outside src. *)
Record System := {
  store : Store;
  first : Call Token;
  second : Call Token
}.

Definition sys_step (s : System) (who : Turn) : System :=
  match who with
  | First =>
      let (st, c) := call_step (store s) (first s) in
      {| store := st; first := c; second := second s |}
  | Second =>
      let (st, c) := call_step (store s) (second s) in
      {| store := st; first := first s; second := c |}
  end.

Definition run_schedule (sched : list Turn) (s : System) : System :=
  foldl sys_step s sched.

(** Both calls start with the same refresh token. *)
Definition concurrent_refresh (t : Token) (st : Store) : System :=
  {| store := st; first := Entered t; second := Entered t |}.

Definition succeeded (c : Call Token) : Prop :=
  exists pair, c = Finished (Return pair).

Definition failed_with (f : Failure) (c : Call Token) : Prop :=
  c = Finished (Raise f).

Definition finished (c : Call Token) : Prop := exists r, c = Finished r.

(** How many of a call's steps are still to come, and how many turns a
    schedule gives to one of the two calls. *)
Definition remaining (c : Call Token) : nat :=
  match c with
  | Entered _ => 3
  | Verified _ => 2
  | Swapped _ => 1
  | Finished _ => 0
  end.

Definition same_turn (a b : Turn) : bool :=
  match a, b with
  | First, First | Second, Second => true
  | _, _ => false
  end.

Fixpoint turns (who : Turn) (sched : list Turn) : nat :=
  match sched with
  | [] => 0
  | x :: rest => (if same_turn who x then 1 else 0) + turns who rest
  end.

(** Where a call stands with respect to the token [t] both calls were
    given. *)
Inductive stage :=
| AtEntry | AtVerified | AtSwapped | AtSuccess | AtReuse | AtTokenError.

Inductive at_stage (t : Token) : Call Token -> stage -> Prop :=
| at_entry : at_stage t (Entered t) AtEntry
| at_verified cl :
    verify t refresh = Return cl -> at_stage t (Verified cl) AtVerified
| at_swapped cl :
    verify t refresh = Return cl -> at_stage t (Swapped cl) AtSwapped
| at_success pair : at_stage t (Finished (Return pair)) AtSuccess
| at_reuse : at_stage t (Finished (Raise ReuseDetected)) AtReuse
| at_token_error k :
    verify t refresh = Raise k ->
    at_stage t (Finished (Raise (TokenError k))) AtTokenError.

(** The call has retired the identifier itself. *)
Definition won (s : stage) : bool :=
  match s with AtSwapped | AtSuccess => true | _ => false end.

(** The call found the identifier retired. *)
Definition lost (s : stage) : bool :=
  match s with AtReuse => true | _ => false end.

(** Whether the rotation identifier of the token [t] is retired in the
    store. *)
Definition is_retired (t : Token) (st : Store) : bool :=
  match verify t refresh with
  | Return cl => bool_decide (rot cl ∈ retired st)
  | Raise _ => false
  end.

(** What one step of a call does to its stage and to the retirement of the
    identifier. *)
Inductive advance : stage -> bool -> stage -> bool -> Prop :=
| adv_verify b : advance AtEntry b AtVerified b
| adv_reject b : advance AtEntry b AtTokenError b
| adv_lose : advance AtVerified true AtReuse true
| adv_win : advance AtVerified false AtSwapped true
| adv_issue b : advance AtSwapped b AtSuccess b
| adv_stay s b : advance s b s b.

(** A call wins only by retiring the identifier, and the two calls never
    both win. *)
Definition at_most_one_winner (is_ret : bool) (s1 s2 : stage) : bool :=
  implb (won s1 || won s2) is_ret && negb (won s1 && won s2).

(** The identifier is retired only by a winner, and a call loses only to a
    retired identifier. *)
Definition retired_by_winner (is_ret : bool) (s1 s2 : stage) : bool :=
  implb is_ret (won s1 || won s2) && implb (lost s1 || lost s2) is_ret.

Definition safe (t : Token) (s : System) : Prop :=
  exists s1 s2,
    at_stage t (first s) s1 /\ at_stage t (second s) s2 /\
    at_most_one_winner (is_retired t (store s)) s1 s2 = true.

Definition tracked (t : Token) (s : System) : Prop :=
  exists s1 s2,
    at_stage t (first s) s1 /\ at_stage t (second s) s2 /\
    at_most_one_winner (is_retired t (store s)) s1 s2 = true /\
    retired_by_winner (is_retired t (store s)) s1 s2 = true.

End Service.

Arguments Build_System {Token} store first second.
Arguments store {Token} s.
Arguments first {Token} s.
Arguments second {Token} s.
Arguments succeeded {Token} c.
Arguments failed_with {Token} f c.
Arguments finished {Token} c.
Arguments concurrent_refresh {Token} t st.

End TokenService.


(** * Concrete instances used to run the models *)

Module Reference.
Import Py Pydantic SettingsPy.

Definition digit_of (c : ascii) : option Z :=
  let n := nat_of_ascii c in
  if (Nat.leb 48 n && Nat.leb n 57)%bool then Some (Z.of_nat (n - 48)) else None.

Fixpoint digits (s : string) (acc : Z) : option Z :=
  match s with
  | EmptyString => Some acc
  | String c r =>
      match digit_of c with
      | Some d => digits r (10 * acc + d)
      | None => None
      end
  end.

(** Plain decimal numerals, with an optional minus sign. *)
Definition decimal (s : string) : option Z :=
  match s with
  | EmptyString => None
  | String "-" EmptyString => None
  | String "-" r => option_map Z.opp (digits r 0)
  | _ => digits s 0
  end.

(** The spellings pydantic reads as booleans. *)
Definition boolean (s : string) : option bool :=
  let l := lower s in
  if existsb (String.eqb l) ["1"; "on"; "t"; "true"; "y"; "yes"] then Some true
  else if existsb (String.eqb l) ["0"; "off"; "f"; "false"; "n"; "no"] then Some false
  else None.

(** A string conversion instance to evaluate the settings with: decimal
    numerals, the usual boolean spellings, any non-empty zone name. *)
Definition core : PydanticCore :=
  {| int_of_str := decimal;
     bool_of_str := boolean;
     is_timezone_name := fun s => negb (String.eqb s "") |}.

(** A deployment that sets the database URL and nothing else. *)
Definition bare_world : World :=
  {| os_environ := [("AUTH_DATABASE_URL", "sqlite+aiosqlite:///auth.db")];
     dotenv_files := ∅;
     module_dir := "/srv/fastapi_auth" |}.

(** A deployment that also sets the encryption key and both lifetimes. *)
Definition keyed_world : World :=
  {| os_environ := [("AUTH_DATABASE_URL", "sqlite+aiosqlite:///auth.db");
                    ("ENCRYPTION_KEY", "c2VjcmV0LXNlY3JldC1zZWNyZXQtc2VjcmV0LTAwMDA=");
                    ("JWT_ACCESS_TOKEN_EXPIRE_MINUTES", "15");
                    ("JWT_REFRESH_TOKEN_EXPIRE_MINUTES", "45")];
     dotenv_files := ∅;
     module_dir := "/srv/fastapi_auth" |}.

(** A deployment with no configuration at all. *)
Definition empty_world : World :=
  {| os_environ := []; dotenv_files := ∅; module_dir := "/srv/fastapi_auth" |}.

(** What [os.urandom(32)] may hand out in two different processes. *)
Definition entropy_a : list Byte.byte := repeat Byte.x00 32.
Definition entropy_b : list Byte.byte := repeat Byte.xff 32.

(** A stand-in for the password hash check, and a directory with one user
    who has a password and one who has none. *)
Definition toy_verify (password stored_hash : string) : bool :=
  String.eqb stored_hash ("hashed:" ++ password).

Definition sample_directory : ModelsUser.Table :=
  {| ModelsUser.rows :=
       [{| ModelsUser.id := 1;
           ModelsUser.name := Some "Ann";
           ModelsUser.email := "ann@x.com";
           ModelsUser.profile_pic := None;
           ModelsUser.password := Some "hashed:pw";
           ModelsUser.roles := [];
           ModelsUser.is_staff := false |};
        {| ModelsUser.id := 2;
           ModelsUser.name := Some "Bob";
           ModelsUser.email := "bob@x.com";
           ModelsUser.profile_pic := None;
           ModelsUser.password := None;
           ModelsUser.roles := [];
           ModelsUser.is_staff := false |}];
     ModelsUser.next_id := 3 |}.

(** Tokens to run the token service with: the claim set itself stands for
    the signed token, and verification checks the kind. *)
Definition toy_sign (c : TokenService.Claims) : TokenService.Claims := c.

Definition toy_verify_token (t : TokenService.Claims) (k : TokenService.Kind)
  : outcome Failures.TokenErrorKind TokenService.Claims :=
  match TokenService.kind t, k with
  | TokenService.access, TokenService.access
  | TokenService.refresh, TokenService.refresh => Return t
  | _, _ => Raise Failures.KindMismatch
  end.

Definition sample_refresh_token : TokenService.Claims :=
  {| TokenService.sub := 7;
     TokenService.aud := "fastapi-auth";
     TokenService.iat := 0;
     TokenService.exp := 2592000;
     TokenService.kind := TokenService.refresh;
     TokenService.rot := 1 |}.

Definition sample_store : TokenService.Store :=
  {| TokenService.retired := ∅; TokenService.next_rot := 2 |}.

(** A race: both calls verify, the second retires the identifier, the
    first finds it retired, the second issues the new pair. *)
Definition sample_schedule : list TokenService.Turn :=
  [TokenService.First; TokenService.Second; TokenService.Second;
   TokenService.First; TokenService.First; TokenService.Second].

Definition sample_race : TokenService.System TokenService.Claims :=
  TokenService.run_schedule TokenService.Claims toy_sign toy_verify_token
    "fastapi-auth" 30 43200 1000 sample_schedule
    (TokenService.concurrent_refresh sample_refresh_token sample_store).

End Reference.


(** * Notions used to state further properties of the code *)

Module Report.
Import Py Pydantic SettingsPy.

(** The lines of the [ValidationError] a validation ends in, none when it
    returns. *)
Definition errors_of {A} (v : Validated A) : list ErrorDetails :=
  match v with
  | Return _ => []
  | Raise e => e
  end.

(** A [ValidationError] always has at least one line. *)
Definition proper {A} (v : Validated A) : Prop :=
  match v with
  | Raise [] => False
  | _ => True
  end.

Section Settings.
Context `{PydanticCore}.
Variable w : World.

(** What there is to report about a field that has a default: a line when
    the configuration gives it a value that does not convert. *)
Definition complaint {A} (parse : string -> option A) (ty : ErrorType)
    (field : string) : list ErrorDetails :=
  match configured w field with
  | Some v =>
      match parse v with
      | Some _ => []
      | None => [(field, ty)]
      end
  | None => []
  end.

(** What there is to report about the database URL, the field without a
    default. *)
Definition url_complaint : list ErrorDetails :=
  match configured w "auth_database_url" with
  | Some _ => []
  | None => [("auth_database_url", missing)]
  end.

(** Everything there is to report about a configuration, in the order the
    class declares its fields.  The fields annotated [str] take any value. *)
Definition settings_errors : list ErrorDetails :=
  (url_complaint
   ++ complaint as_timezone TimeZoneName "auth_timezone"
   ++ complaint as_int int_parsing "jwt_access_token_expire_minutes"
   ++ complaint as_int int_parsing "jwt_refresh_token_expire_minutes"
   ++ complaint email_backend_of_str literal_error "email_backend"
   ++ complaint as_opt_int int_parsing "smtp_port"
   ++ complaint as_bool bool_parsing "smtp_use_tls"
   ++ complaint as_int int_parsing "smtp_timeout"
   ++ complaint as_bool bool_parsing "passwordless_login_enabled"
   ++ complaint as_bool bool_parsing "email_verification_required")%list.

End Settings.

(** The same settings with another encryption key. *)
Definition with_encryption_key (k : string) (s : Settings) : Settings :=
  {| auth_database_url := auth_database_url s;
     auth_timezone := auth_timezone s;
     project_name := project_name s;
     jwt_secret_key := jwt_secret_key s;
     jwt_algorithm := jwt_algorithm s;
     jwt_access_token_expire_minutes := jwt_access_token_expire_minutes s;
     jwt_refresh_token_expire_minutes := jwt_refresh_token_expire_minutes s;
     jwt_audience := jwt_audience s;
     encryption_key := k;
     email_backend := email_backend s;
     templates_dir := templates_dir s;
     smtp_host := smtp_host s;
     smtp_port := smtp_port s;
     smtp_username := smtp_username s;
     smtp_password := smtp_password s;
     smtp_from := smtp_from s;
     smtp_use_tls := smtp_use_tls s;
     smtp_timeout := smtp_timeout s;
     azure_email_service_name := azure_email_service_name s;
     azure_email_service_endpoint := azure_email_service_endpoint s;
     azure_email_service_api_key := azure_email_service_api_key s;
     custom_user_model := custom_user_model s;
     custom_user_profile_model := custom_user_profile_model s;
     passwordless_login_enabled := passwordless_login_enabled s;
     email_verification_required := email_verification_required s |}.


(** A process that calls [get_settings()] again and again, the world being
    what it is at each call: the results of the calls, in order. *)
Fixpoint calls `{PydanticCore} (imp : Imported) (worlds : list World)
    (cache : option Settings) : list (Validated Settings) :=
  match worlds with
  | [] => []
  | w :: rest =>
      let (result, cache') := get_settings imp w cache in
      result :: calls imp rest cache'
  end.

End Report.

Module SchemaReport.
Import Py Pydantic SchemasUser Report.

(** What validation reports about one declared field of a decoded object:
    nothing for a string, nothing for [None] where the annotation admits
    it, a line otherwise. *)
Definition field_errors (d : gmap string json) (fld : string * bool)
  : list ErrorDetails :=
  match d !! fst fld with
  | None => [(fst fld, missing)]
  | Some (JStr _) => []
  | Some JNull => if snd fld then [] else [(fst fld, string_type)]
  | Some _ => [(fst fld, string_type)]
  end.

(** The value a field annotated [str | None] is read from. *)
Definition json_of_optional (o : option string) : json :=
  match o with
  | Some s => JStr s
  | None => JNull
  end.

(** The validated object of any of the five schemas. *)
Inductive Parsed :=
| LoginPayload (t : UserPasswordLoginSchema.t)
| SignupPayload (t : UserSignupSchema.t)
| JWTPayload (t : UserJWTResponseSchema.t)
| SocialPayload (t : UserSocialLoginSchema.t)
| SignupResponsePayload (t : UserSignupResponseSchema.t).

(** Validation against the schema of that name. *)
Definition parse (sc : schema) (input : json) : Validated Parsed :=
  match sc with
  | PasswordLogin => LoginPayload <$$> UserPasswordLoginSchema.validate input
  | Signup => SignupPayload <$$> UserSignupSchema.validate input
  | JWTResponse => JWTPayload <$$> UserJWTResponseSchema.validate input
  | SocialLogin => SocialPayload <$$> UserSocialLoginSchema.validate input
  | SignupResponse =>
      SignupResponsePayload <$$> UserSignupResponseSchema.validate input
  end.

End SchemaReport.

Module Base64.
Import Py.

(** The place of a character in the alphabet, if it has one. *)
Fixpoint index_in (c : ascii) (l : list ascii) : option N :=
  match l with
  | [] => None
  | d :: r =>
      if Ascii.eqb c d then Some 0%N else option_map N.succ (index_in c r)
  end.

Definition b64_value (c : ascii) : option N := index_in c b64_alphabet.

(** The sextets [urlsafe_b64encode] makes of three bytes. *)
Definition sextet0 (a : N) : N := N.shiftr a 2.
Definition sextet1 (a b : N) : N := N.lor (N.shiftl (N.land a 3) 4) (N.shiftr b 4).
Definition sextet2 (b c : N) : N := N.lor (N.shiftl (N.land b 15) 2) (N.shiftr c 6).
Definition sextet3 (c : N) : N := N.land c 63.

(** The three bytes four sextets stand for. *)
Definition first_byte (s0 s1 : N) : N := N.lor (N.shiftl s0 2) (N.shiftr s1 4).
Definition second_byte (s1 s2 : N) : N :=
  N.lor (N.shiftl (N.land s1 15) 4) (N.shiftr s2 2).
Definition third_byte (s2 s3 : N) : N := N.lor (N.shiftl (N.land s2 3) 6) s3.

(** A strict decoder for what [urlsafe_b64encode] writes: groups of four
    characters of the alphabet, the last group padded with [=]. *)
Fixpoint urlsafe_b64decode (s : string) : option (list Byte.byte) :=
  match s with
  | EmptyString => Some []
  | String c0 (String c1 (String c2 (String c3 rest))) =>
      match b64_value c0, b64_value c1 with
      | Some s0, Some s1 =>
          match Byte.of_N (first_byte s0 s1) with
          | None => None
          | Some a =>
              if Ascii.eqb c2 "=" then
                if Ascii.eqb c3 "=" then
                  match rest with EmptyString => Some [a] | _ => None end
                else None
              else
                match b64_value c2 with
                | None => None
                | Some s2 =>
                    match Byte.of_N (second_byte s1 s2) with
                    | None => None
                    | Some b =>
                        if Ascii.eqb c3 "=" then
                          match rest with
                          | EmptyString => Some [a; b]
                          | _ => None
                          end
                        else
                          match b64_value c3 with
                          | None => None
                          | Some s3 =>
                              match Byte.of_N (third_byte s2 s3),
                                    urlsafe_b64decode rest with
                              | Some c, Some l => Some (a :: b :: c :: l)
                              | _, _ => None
                              end
                          end
                    end
                end
          end
      | _, _ => None
      end
  | _ => None
  end.

(** The numbers below [n], to go through them all. *)
Definition below (n : nat) : list N := map N.of_nat (seq 0 n).

(** What is checked of a sextet: its character decodes to it and is not the
    padding character. *)
Definition sextet_ok (s : N) : bool :=
  match b64_value (b64_char s) with
  | Some v => N.eqb v s && negb (Ascii.eqb (b64_char s) "=")
  | None => false
  end.

End Base64.

(** * More concrete inputs *)

Module Samples.
Import Py Pydantic SettingsPy.

(** A deployment with no database URL, a mail backend the code does not
    know and an SMTP port that is no number. *)
Definition broken_world : World :=
  {| os_environ := [("EMAIL_BACKEND", "sendgrid"); ("SMTP_PORT", "smtp")];
     dotenv_files := ∅;
     module_dir := "/srv/fastapi_auth" |}.


End Samples.


(** * Properties of the configuration (src/settings.py) *)

Section SettingsProperties.
Import Py Pydantic SettingsPy.
Context `{PydanticCore}.

Lemma vmap_Return_inv {A B} (f : A -> B) (x : Validated A) (y : B) :
  f <$$> x = Return y -> exists a, x = Return a /\ y = f a.
Proof. destruct x as [a|e]; simpl; intros E; [|discriminate]. inversion E. eauto. Qed.

Lemma vap_Return_inv {A B} (f : Validated (A -> B)) (x : Validated A) (y : B) :
  f <**> x = Return y -> exists g a, f = Return g /\ x = Return a /\ y = g a.
Proof.
  destruct f as [g|e], x as [a|e']; simpl; intros E; try discriminate.
  inversion E. eauto.
Qed.



(** The sources a field is read from do not depend on the random bytes of
    the run. *)
Lemma raw_value_import w r field :
  raw_value (import_module w r) w field = configured w field.
Proof. reflexivity. Qed.

Lemma startup_unfold w r : startup w r = Settings_init (import_module w r) w.
Proof.
  unfold startup, get_settings.
  destruct (Settings_init (import_module w r) w); reflexivity.
Qed.

Lemma defaulted_Return {A} w r (parse : string -> option A) ty field d v :
  defaulted (import_module w r) w parse ty field d = Return v ->
  match configured w field with
  | Some raw => parse raw = Some v
  | None => v = d
  end.
Proof.
  unfold defaulted. rewrite raw_value_import.
  destruct (configured w field) as [raw|].
  - destruct (parse raw); intros E; inversion E; reflexivity.
  - intros E; inversion E; reflexivity.
Qed.


(** Within one process the cache hands out the settings it was filled
    with. *)
Lemma get_settings_again imp w cache s cache' :
  get_settings imp w cache = (Return s, cache') ->
  get_settings imp w cache' = (Return s, cache').
Proof.
  unfold get_settings. destruct cache as [s0|].
  - intros E. inversion E. subst. reflexivity.
  - destruct (Settings_init imp w) as [s0|e]; intros E; inversion E.
    subst. reflexivity.
Qed.

(** Takes a successful [Settings_init] apart, field by field. *)
Ltac fields_of E :=
  repeat (apply vap_Return_inv in E;
          let g := fresh "g" in
          let a := fresh "a" in
          let Ea := fresh "Ea" in
          let Ey := fresh "Ey" in
          destruct E as (g & a & E & Ea & Ey));
  apply vmap_Return_inv in E;
  let a := fresh "a" in
  let Ea := fresh "Ea" in
  let Ey := fresh "Ey" in
  destruct E as (a & Ea & Ey);
  subst.

(** What a successful startup says about the four settings the claims are
    about. *)
Lemma startup_fields w r s :
  startup w r = Return s ->
  defaulted (import_module w r) w as_str value_error "jwt_secret_key"
    "sample-secret-key-dont-use-in-production" = Return (jwt_secret_key s) /\
  defaulted (import_module w r) w as_int int_parsing
    "jwt_access_token_expire_minutes" 30
    = Return (jwt_access_token_expire_minutes s) /\
  defaulted (import_module w r) w as_int int_parsing
    "jwt_refresh_token_expire_minutes" (60 * 24 * 30)
    = Return (jwt_refresh_token_expire_minutes s) /\
  defaulted (import_module w r) w as_str value_error "encryption_key"
    (Fernet_generate_key r) = Return (encryption_key s).
Proof.
  rewrite startup_unfold. unfold Settings_init. intros E.
  fields_of E. simpl. auto.
Qed.

End SettingsProperties.

Section SettingsClaims.
Import Py Pydantic SettingsPy.
Context `{PydanticCore}.

(** C1 (as amended).  The encryption key comes from the configuration and
    is the same in every run only when the configuration sets it: two runs
    under the same external configuration that sets [encryption_key] both
    use the configured value.  When the configuration does not set it, each
    run uses the key its own import generated from that run's random bytes
    ([Fernet.generate_key()]). *)
Theorem encryption_key_of_run (w : World) (r1 r2 : list Byte.byte) (s1 s2 : Settings) :
  startup w r1 = Return s1 ->
  startup w r2 = Return s2 ->
  match configured w "encryption_key" with
  | Some k => encryption_key s1 = k /\ encryption_key s2 = k
  | None => encryption_key s1 = Fernet_generate_key r1 /\
            encryption_key s2 = Fernet_generate_key r2
  end.
Proof.
  intros E1 E2.
  apply startup_fields in E1 as (_ & _ & _ & K1).
  apply startup_fields in E2 as (_ & _ & _ & K2).
  apply defaulted_Return in K1. apply defaulted_Return in K2.
  destruct (configured w "encryption_key") as [k|].
  - unfold as_str in *. split; congruence.
  - split; congruence.
Qed.


(** C8 (as amended).  Both token lifetimes are configured in minutes: a
    configured value is read as a number of minutes, for the access token
    and for the refresh token alike.  In the default configuration the
    access token lasts 30 minutes and the refresh token 43200 minutes, which
    is 30 days, so the default refresh lifetime is the longer one. *)
Theorem token_lifetimes_in_minutes (w : World) (r : list Byte.byte) (s : Settings) :
  startup w r = Return s ->
  match configured w "jwt_access_token_expire_minutes" with
  | Some v => int_of_str v = Some (access_lifetime_minutes s)
  | None => access_lifetime_minutes s = 30
  end /\
  match configured w "jwt_refresh_token_expire_minutes" with
  | Some v => int_of_str v = Some (refresh_lifetime_minutes s)
  | None => refresh_lifetime_minutes s = 43200 /\
            refresh_lifetime_minutes s = 30 * minutes_per_day
  end /\
  (configured w "jwt_access_token_expire_minutes" = None ->
   configured w "jwt_refresh_token_expire_minutes" = None ->
   access_lifetime_minutes s < refresh_lifetime_minutes s).
Proof.
  intros E. apply startup_fields in E as (_ & A & R & _).
  apply defaulted_Return in A. apply defaulted_Return in R.
  unfold access_lifetime_minutes, refresh_lifetime_minutes, minutes_per_day, as_int in *.
  repeat split.
  - destruct (configured w "jwt_access_token_expire_minutes"); exact A.
  - destruct (configured w "jwt_refresh_token_expire_minutes"); [exact R|].
    rewrite R. split; reflexivity.
  - intros Ha Hr. rewrite Ha in A. rewrite Hr in R. rewrite A, R. reflexivity.
Qed.

End SettingsClaims.

(** C1, the claim as stated fails: under one and the same configuration,
    which does not set the key, two runs end up with different keys. *)
Lemma encryption_key_differs_between_runs :
  exists s1 s2,
    SettingsPy.configured Reference.bare_world "encryption_key" = None /\
    @SettingsPy.startup Reference.core Reference.bare_world Reference.entropy_a
      = Py.Return s1 /\
    @SettingsPy.startup Reference.core Reference.bare_world Reference.entropy_b
      = Py.Return s2 /\
    SettingsPy.encryption_key s1 <> SettingsPy.encryption_key s2.
Proof.
  do 2 eexists. split; [vm_compute; reflexivity|].
  split; [vm_compute; reflexivity|].
  split; [vm_compute; reflexivity|].
  vm_compute. discriminate.
Qed.

(** C1, the amended statement at a configuration that sets the key. *)
Lemma encryption_key_of_run_witness :
  exists s1 s2,
    @SettingsPy.startup Reference.core Reference.keyed_world Reference.entropy_a
      = Py.Return s1 /\
    @SettingsPy.startup Reference.core Reference.keyed_world Reference.entropy_b
      = Py.Return s2 /\
    SettingsPy.encryption_key s1 = "c2VjcmV0LXNlY3JldC1zZWNyZXQtc2VjcmV0LTAwMDA=" /\
    SettingsPy.encryption_key s2 = "c2VjcmV0LXNlY3JldC1zZWNyZXQtc2VjcmV0LTAwMDA=".
Proof.
  do 2 eexists.
  split; [vm_compute; reflexivity|].
  split; [vm_compute; reflexivity|].
  exact (@encryption_key_of_run Reference.core Reference.keyed_world
           Reference.entropy_a Reference.entropy_b _ _ eq_refl eq_refl).
Defined.



(** C8, the claim as stated fails: a refresh lifetime configured as 45 is
    45 minutes, not 45 days. *)
Lemma refresh_lifetime_not_in_days :
  exists s,
    SettingsPy.configured Reference.keyed_world "jwt_refresh_token_expire_minutes"
      = Some "45" /\
    @SettingsPy.int_of_str Reference.core "45" = Some 45 /\
    @SettingsPy.startup Reference.core Reference.keyed_world Reference.entropy_a
      = Py.Return s /\
    SettingsPy.refresh_lifetime_minutes s = 45 /\
    SettingsPy.refresh_lifetime_minutes s <> 45 * SettingsPy.minutes_per_day.
Proof.
  eexists. split; [vm_compute; reflexivity|].
  split; [vm_compute; reflexivity|].
  split; [vm_compute; reflexivity|].
  split; [vm_compute; reflexivity|].
  vm_compute. discriminate.
Qed.

(** C8, the amended statement at the default configuration. *)
Lemma token_lifetimes_in_minutes_witness :
  exists s,
    @SettingsPy.startup Reference.core Reference.bare_world Reference.entropy_a
      = Py.Return s /\
    SettingsPy.access_lifetime_minutes s = 30 /\
    SettingsPy.refresh_lifetime_minutes s = 43200 /\
    SettingsPy.access_lifetime_minutes s < SettingsPy.refresh_lifetime_minutes s.
Proof.
  eexists. split; [vm_compute; reflexivity|].
  pose proof (@token_lifetimes_in_minutes Reference.core Reference.bare_world
                Reference.entropy_a _ eq_refl) as (A & R & L).
  vm_compute in A, R.
  split; [exact A|]. split; [exact (proj1 R)|].
  apply L; vm_compute; reflexivity.
Defined.


(** * Properties of the wire schemas (src/schemas/user.py) *)

Section SchemaProperties.
Import Py Pydantic SchemasUser.

Lemma is_return_vmap {A B} (f : A -> B) (x : Validated A) :
  is_return (f <$$> x) = is_return x.
Proof. destruct x; reflexivity. Qed.

Lemma is_return_vap {A B} (f : Validated (A -> B)) (x : Validated A) :
  is_return (f <**> x) = is_return f && is_return x.
Proof. destruct f, x; reflexivity. Qed.

Lemma is_return_str_field d name :
  is_return (str_field d name) = field_ok d (name, false).
Proof.
  unfold str_field, field_ok. simpl.
  destruct (d !! name) as [[]|]; reflexivity.
Qed.

Lemma is_return_nullable_str_field d name :
  is_return (nullable_str_field d name) = field_ok d (name, true).
Proof.
  unfold nullable_str_field, field_ok. simpl.
  destruct (d !! name) as [[]|]; reflexivity.
Qed.

Lemma str_field_absent d name :
  d !! name = None -> str_field d name = Raise [(name, missing)].
Proof. unfold str_field. now intros ->. Qed.

Lemma nullable_str_field_absent d name :
  d !! name = None -> nullable_str_field d name = Raise [(name, missing)].
Proof. unfold nullable_str_field. now intros ->. Qed.

Lemma field_ok_absent d name nullable :
  d !! name = None -> field_ok d (name, nullable) = false.
Proof. unfold field_ok. simpl. now intros ->. Qed.

(** C6 (as amended).  For every wire payload and each of the five schemas,
    validation succeeds exactly when the payload is an object in which
    every declared field is present, the fields marked optional holding a
    string or null and the unmarked fields holding a string.  A field
    marked optional may be null but may not be omitted: validation fails
    whenever any declared field, marked or not, is absent. *)
Theorem validation_requires_every_field (sc : schema) (input : json) :
  accepts sc input = payload_ok sc input /\
  (forall members name nullable,
     input = JDict members ->
     In (name, nullable) (declared sc) ->
     as_dict members !! name = None ->
     accepts sc input = false).
Proof.
  assert (E : accepts sc input = payload_ok sc input).
  { destruct sc, input; try reflexivity; simpl;
      unfold UserPasswordLoginSchema.fields, UserSignupSchema.fields,
        UserJWTResponseSchema.fields, UserSocialLoginSchema.fields,
        UserSignupResponseSchema.fields;
      rewrite ?is_return_vap, ?is_return_vmap,
        ?is_return_str_field, ?is_return_nullable_str_field;
      rewrite ?andb_true_r, ?andb_assoc; reflexivity. }
  split; [exact E|].
  intros members name nullable -> Hin Habs. rewrite E. simpl.
  apply not_true_is_false. intros Hall.
  rewrite forallb_forall in Hall. specialize (Hall _ Hin).
  rewrite (field_ok_absent _ _ _ Habs) in Hall. discriminate.
Qed.

End SchemaProperties.

(** C6, the claim as stated fails: a login payload that leaves out the
    password, a field marked optional, is refused as missing that field. *)
Lemma omitted_optional_field_is_refused :
  SchemasUser.UserPasswordLoginSchema.validate
    (SchemasUser.JDict [("email", SchemasUser.JStr "a@x.com")])
  = Py.Raise [("password", Pydantic.missing)] /\
  SchemasUser.accepts SchemasUser.PasswordLogin
    (SchemasUser.JDict [("email", SchemasUser.JStr "a@x.com")]) = false /\
  SchemasUser.accepts SchemasUser.PasswordLogin
    (SchemasUser.JDict [("email", SchemasUser.JStr "a@x.com");
                        ("password", SchemasUser.JNull)]) = true.
Proof. repeat split; vm_compute; reflexivity. Qed.

(** C6, the amended statement at a signup payload without [name]. *)
Lemma validation_requires_every_field_witness :
  SchemasUser.accepts SchemasUser.Signup
    (SchemasUser.JDict [("email", SchemasUser.JStr "a@x.com");
                        ("password", SchemasUser.JStr "pw");
                        ("profile_pic", SchemasUser.JNull)]) = false.
Proof.
  apply (proj2 (validation_requires_every_field SchemasUser.Signup _)
           _ "name" true eq_refl).
  - simpl. auto.
  - vm_compute. reflexivity.
Defined.


(** * Properties of the user table (src/models/user.py) *)

Section UserTableClaims.
Import Py ModelsUser.


End UserTableClaims.



(** * Properties of the user directory (specification, sections 3 and 4.5) *)

Section UserDirectoryProperties.
Import Py Failures ModelsUser PasswordLogin UserDirectory.

Lemma lower_ascii_idem c : lower_ascii (lower_ascii c) = lower_ascii c.
Proof. destruct c as [[] [] [] [] [] [] [] []]; reflexivity. Qed.

(** Normalising a normalised email changes nothing. *)
Lemma normalize_email_idem e : normalize_email (normalize_email e) = normalize_email e.
Proof.
  unfold normalize_email. induction e as [|c e IH]; simpl; [reflexivity|].
  now rewrite lower_ascii_idem, IH.
Qed.

Lemma normalize_email_length e :
  String.length (normalize_email e) = String.length e.
Proof.
  unfold normalize_email. induction e as [|c e IH]; simpl; [reflexivity|].
  now rewrite IH.
Qed.

Lemma email_taken_In e rs : email_taken e rs = true <-> In e (map email rs).
Proof.
  unfold email_taken. rewrite existsb_exists, in_map_iff. split.
  - intros (u & Hin & Heq). apply String.eqb_eq in Heq. eauto.
  - intros (u & Heq & Hin). exists u. split; [exact Hin|]. now apply String.eqb_eq.
Qed.

Lemma email_taken_false e rs : email_taken e rs = false <-> ~ In e (map email rs).
Proof.
  rewrite <- email_taken_In. destruct (email_taken e rs); split; intro; congruence.
Qed.

Lemma NoDup_snoc {A} (l : list A) (x : A) :
  List.NoDup l -> ~ In x l -> List.NoDup (l ++ [x]).
Proof.
  induction l as [|y l IH]; simpl; intros Hnd Hx.
  - constructor; [intros []|constructor].
  - apply NoDup_cons_iff in Hnd as [Hy Hnd]. apply NoDup_cons_iff. split.
    + rewrite in_app_iff. simpl. intros [Hin|[->|[]]]; [auto|]. apply Hx. now left.
    + apply IH; [exact Hnd|]. intros Hin. apply Hx. now right.
Qed.

(** Replacing a record keeps every identifier where it was. *)
Lemma replace_row_ids u' rs : map id (replace_row u' rs) = map id rs.
Proof.
  induction rs as [|v rs IH]; simpl; [reflexivity|]. rewrite IH. f_equal.
  destruct (Nat.eqb (id v) (id u')) eqn:E; [|reflexivity].
  symmetry. now apply Nat.eqb_eq.
Qed.

Lemma replace_row_absent u' rs :
  ~ In (id u') (map id rs) -> replace_row u' rs = rs.
Proof.
  induction rs as [|v rs IH]; simpl; intros Hnot; [reflexivity|].
  destruct (Nat.eqb (id v) (id u')) eqn:E.
  - apply Nat.eqb_eq in E. exfalso. apply Hnot. now left.
  - f_equal. apply IH. intros Hin. apply Hnot. now right.
Qed.

(** What is stored after a replacement is the new record or an old one
    with another identifier. *)
Lemma In_replace_row u' rs v :
  In v (replace_row u' rs) -> v = u' \/ (In v rs /\ id v <> id u').
Proof.
  unfold replace_row. rewrite in_map_iff. intros (x & Hx & Hin).
  destruct (Nat.eqb (id x) (id u')) eqn:E.
  - left. now symmetry.
  - right. subst v. split; [exact Hin|]. now apply Nat.eqb_neq.
Qed.

Lemma replace_row_In u' rs :
  In (id u') (map id rs) -> In u' (replace_row u' rs).
Proof.
  rewrite in_map_iff. intros (x & Hx & Hin).
  unfold replace_row. apply in_map_iff. exists x. split; [|exact Hin].
  now rewrite Hx, Nat.eqb_refl.
Qed.

Lemma In_others i v rs : In v (others i rs) <-> In v rs /\ id v <> i.
Proof.
  unfold others. rewrite filter_In, negb_true_iff, Nat.eqb_neq. reflexivity.
Qed.

Lemma find_row_Some i rs u : find_row i rs = Some u -> In u rs /\ id u = i.
Proof.
  unfold find_row. intros E. apply find_some in E as [Hin Heq].
  split; [exact Hin|]. now apply Nat.eqb_eq.
Qed.

(** With emails all different, an email names one record. *)
Lemma same_email_same_row rs u v :
  List.NoDup (map email rs) -> In u rs -> In v rs -> email u = email v -> u = v.
Proof.
  induction rs as [|x rs IH]; simpl; intros Hnd Hu Hv Heq; [contradiction|].
  apply NoDup_cons_iff in Hnd as [Hx Hnd].
  destruct Hu as [->|Hu], Hv as [->|Hv]; auto.
  - exfalso. apply Hx. rewrite Heq. now apply in_map.
  - exfalso. apply Hx. rewrite <- Heq. now apply in_map.
Qed.

(** Replacing the record of an identifier by one with email [email u']
    keeps the emails all different, as long as no other record has that
    email. *)
Lemma replace_row_emails u' rs :
  List.NoDup (map id rs) ->
  List.NoDup (map email rs) ->
  (forall v, In v rs -> id v <> id u' -> email v <> email u') ->
  List.NoDup (map email (replace_row u' rs)).
Proof.
  induction rs as [|v rs IH]; simpl; intros Hid Hem Hother; [constructor|].
  apply NoDup_cons_iff in Hid as [Hv Hid].
  apply NoDup_cons_iff in Hem as [Hve Hem].
  destruct (Nat.eqb (id v) (id u')) eqn:E.
  - apply Nat.eqb_eq in E. rewrite replace_row_absent by (now rewrite <- E).
    apply NoDup_cons_iff. split; [|exact Hem].
    intros Hin. apply in_map_iff in Hin as (x & Hx & Hin).
    apply (Hother x); [now right| |exact Hx].
    intros Heq. apply Hv. rewrite E, <- Heq. now apply in_map.
  - apply Nat.eqb_neq in E. apply NoDup_cons_iff. split.
    + intros Hin. apply in_map_iff in Hin as (x & Hx & Hin).
      unfold replace_row in Hin. apply in_map_iff in Hin as (y & Hy & Hin).
      destruct (Nat.eqb (id y) (id u')).
      * subst x. apply (Hother v); [now left|exact E|]. now symmetry.
      * subst x. apply Hve. rewrite <- Hx. now apply in_map.
    + apply IH; auto.
Qed.

(** The lookup of the login finds a record stored last under an email no
    earlier record has. *)
Lemma find_by_email_last e rs u n :
  email_taken e rs = false -> email u = e ->
  find_by_email e {| rows := rs ++ [u]; next_id := n |} = Some u.
Proof.
  unfold find_by_email. simpl. intros Hfree Hu.
  induction rs as [|v rs IH]; simpl in *.
  - now rewrite Hu, String.eqb_refl.
  - apply orb_false_iff in Hfree as [Hv Hfree]. rewrite Hv. now apply IH.
Qed.

Section Operations.
Variable enforces_width : bool.

(** A record that is written is stored as it is. *)
Lemma store_Return u t u2 t2 :
  store enforces_width u t = Return (u2, t2) -> u2 = u /\ t2 = t.
Proof.
  unfold store. destruct (too_long u); [destruct enforces_width|];
    intros E; inversion E; auto.
Qed.

Lemma store_fits u t : too_long u = None -> store enforces_width u t = Return (u, t).
Proof. unfold store. now intros ->. Qed.

(** What [create] has done when it returns. *)
Lemma create_Return a t u t' :
  create enforces_width a t = Return (u, t') ->
  exists e,
    arg_email a = Some e /\
    email_taken (normalize_email e) (rows t) = false /\
    u = {| id := next_id t;
           name := arg_name a;
           email := normalize_email e;
           profile_pic := arg_profile_pic a;
           password := arg_password a;
           roles := [];
           is_staff := match arg_is_staff a with
                       | Some b => b
                       | None => is_staff_default
                       end |} /\
    t' = {| rows := rows t ++ [u]; next_id := S (next_id t) |}.
Proof.
  unfold create, insert. simpl.
  destruct (arg_email a) as [e|]; simpl; [|discriminate].
  destruct (email_taken (normalize_email e) (rows t)) eqn:Etaken; [discriminate|].
  intros E. apply store_Return in E as [-> ->].
  exists e. auto.
Qed.

Lemma create_shape a t u t' :
  shape t -> create enforces_width a t = Return (u, t') ->
  shape t' /\ In u (rows t').
Proof.
  intros (Hem & Hnorm & Hid & Hlt & Hroles) E.
  apply create_Return in E as (e & Ha & Hfree & Hu & ->).
  apply email_taken_false in Hfree.
  assert (Eu : email u = normalize_email e) by now subst u.
  assert (Iu : id u = next_id t) by now subst u.
  assert (Ru : roles u = []) by now subst u.
  clear Hu. unfold shape, emails, ids in *. simpl.
  split; [|apply in_or_app; right; now left].
  rewrite !map_app. simpl. split; [|split; [|split; [|split]]].
  - apply NoDup_snoc; [exact Hem|]. now rewrite Eu.
  - intros v [Hv|[<-|[]]]%in_app_or; [now apply Hnorm|].
    rewrite Eu. apply normalize_email_idem.
  - apply NoDup_snoc; [exact Hid|]. rewrite Iu. intros Hin.
    apply in_map_iff in Hin as (v & Hv & Hin). specialize (Hlt v Hin). lia.
  - intros v [Hv|[<-|[]]]%in_app_or; [specialize (Hlt v Hv); lia|lia].
  - intros v [Hv|[<-|[]]]%in_app_or; [now apply Hroles|].
    rewrite Ru. constructor.
Qed.

(** A replacement that keeps the identifier and the roles of a record, or
    gives it roles that are a set, and an email that is normalised and that
    no other record has, keeps the shape. *)
Lemma replace_row_shape t u u' :
  shape t -> In u (rows t) -> id u' = id u ->
  normalize_email (email u') = email u' ->
  (forall v, In v (rows t) -> id v <> id u -> email v <> email u') ->
  List.NoDup (roles u') ->
  shape {| rows := replace_row u' (rows t); next_id := next_id t |} /\
  In u' (replace_row u' (rows t)).
Proof.
  intros (Hem & Hnorm & Hid & Hlt & Hroles) Hin Hsame Hn Hother Hr.
  unfold shape, emails, ids in *. simpl.
  split; [|apply replace_row_In; rewrite Hsame; now apply in_map].
  rewrite replace_row_ids. split; [|split; [|split; [|split]]].
  - apply replace_row_emails; auto. intros v Hv Hne. apply Hother; congruence.
  - intros v [->|[Hv _]]%In_replace_row; auto.
  - exact Hid.
  - intros v [->|[Hv _]]%In_replace_row; [rewrite Hsame|]; auto.
  - intros v [->|[Hv _]]%In_replace_row; auto.
Qed.

Lemma update_shape i c t u t' :
  shape t -> update enforces_width i c t = Return (u, t') ->
  shape t' /\ In u (rows t').
Proof.
  intros Hs. unfold update.
  destruct (find_row i (rows t)) as [u0|] eqn:Efind; [|discriminate].
  destruct (new_email c u0) as [e|] eqn:Enew; [|discriminate].
  destruct (email_taken e (others i (rows t))) eqn:Etaken; [discriminate|].
  intros E. apply store_Return in E as [-> ->].
  apply find_row_Some in Efind as [Hin0 Hid0].
  apply email_taken_false in Etaken.
  apply (replace_row_shape t u0); auto.
  - simpl. unfold new_email in Enew.
    destruct (set_email c) as [[given|]|]; simpl in Enew; inversion Enew.
    + apply normalize_email_idem.
    + destruct Hs as (_ & Hnorm & _). now apply Hnorm.
  - simpl. intros v Hv Hne Heq. apply Etaken. apply in_map_iff.
    exists v. split; [exact Heq|]. apply In_others. split; [exact Hv|congruence].
  - simpl. destruct Hs as (_ & _ & _ & _ & Hroles). now apply Hroles.
Qed.

Lemma with_role_roles r u : List.NoDup (roles u) -> List.NoDup (roles (with_role r u)).
Proof.
  intros Hnd. simpl. destruct (existsb (String.eqb r) (roles u)) eqn:E; [exact Hnd|].
  apply NoDup_snoc; [exact Hnd|]. intros Hin.
  assert (Ht : existsb (String.eqb r) (roles u) = true).
  { apply existsb_exists. exists r. split; [exact Hin|apply String.eqb_refl]. }
  congruence.
Qed.

Lemma assign_role_shape i r t u t' :
  shape t -> assign_role i r t = Return (u, t') ->
  shape t' /\ In u (rows t').
Proof.
  intros Hs. unfold assign_role.
  destruct (find_row i (rows t)) as [u0|] eqn:Efind; [|discriminate].
  intros E. inversion E; subst; clear E.
  apply find_row_Some in Efind as [Hin0 Hid0].
  pose proof Hs as (Hem & Hnorm & _ & _ & Hroles).
  apply (replace_row_shape t u0); auto.
  - simpl. now apply Hnorm.
  - simpl. intros v Hv Hne Heq. apply Hne. f_equal.
    now apply (same_email_same_row (rows t)).
  - apply with_role_roles. now apply Hroles.
Qed.

Lemma run_shape o t u t' :
  shape t -> run enforces_width o t = Return (u, t') -> shape t' /\ In u (rows t').
Proof.
  intros Hs E. destruct o; simpl in E.
  - eapply create_shape; eauto.
  - eapply update_shape; eauto.
  - eapply assign_role_shape; eauto.
Qed.

Lemma empty_table_shape : shape empty_table.
Proof.
  unfold shape, emails, ids. simpl.
  split; [constructor|]. split; [intros u []|]. split; [constructor|].
  split; intros u [].
Qed.

Lemma reachable_shape t : reachable enforces_width t -> shape t.
Proof.
  induction 1 as [|t o u t' _ IH E]; [exact empty_table_shape|].
  exact (proj1 (run_shape o t u t' IH E)).
Qed.

(** C7.  In every state of the directory, every stored User record has an
    email (required by the type of the record) that no other record has
    and that is in its case-normalised form, and this shape is kept by
    every [create], [update] and [assignRole] that succeeds.  An account
    without an email is refused, and so is an update that takes the email
    away, or that gives a record the email of another; an email that is
    stored already, in whatever letter case it is given, is
    [DuplicateEmail].  The display name, the profile picture and the
    password hash may each be absent: an account with nothing but an
    unused email (of a width its column takes) is created with the three
    of them null, and the lookup of the login finds it under every
    spelling of its email. *)
Theorem directory_keeps_user_shape (t : Table) :
  reachable enforces_width t ->
  shape t /\
  (forall o u t', run enforces_width o t = Return (u, t') ->
     shape t' /\ In u (rows t')) /\
  (forall a, arg_email a = None ->
     create enforces_width a t = Raise (Refused (NotNullViolation "email"))) /\
  (forall i c u, find_row i (rows t) = Some u -> set_email c = Some None ->
     update enforces_width i c t = Raise (Refused (NotNullViolation "email"))) /\
  (forall a e, arg_email a = Some e -> In (normalize_email e) (emails t) ->
     create enforces_width a t = Raise (Failed DuplicateEmail)) /\
  (forall i c u e v,
     find_row i (rows t) = Some u -> set_email c = Some (Some e) ->
     In v (rows t) -> id v <> i -> email v = normalize_email e ->
     update enforces_width i c t = Raise (Failed DuplicateEmail)) /\
  (forall e, ~ In (normalize_email e) (emails t) ->
     (String.length e <= column_width)%nat ->
     exists u t',
       create enforces_width (only_email e) t = Return (u, t') /\
       email u = normalize_email e /\
       name u = None /\ profile_pic u = None /\ password u = None /\
       forall e', normalize_email e' = normalize_email e ->
                  find_by_email (normalize_email e') t' = Some u).
Proof.
  intros Hreach. pose proof (reachable_shape t Hreach) as Hs.
  split; [exact Hs|]. split; [|split; [|split; [|split; [|split]]]].
  - intros o u t'. now apply run_shape.
  - intros a Ha. unfold create, insert. simpl. now rewrite Ha.
  - intros i c u Hfind Hset. unfold update, new_email.
    now rewrite Hfind, Hset.
  - intros a e Ha Hin. unfold create, insert. simpl. rewrite Ha. simpl.
    apply email_taken_In in Hin. unfold emails in Hin. now rewrite Hin.
  - intros i c u e v Hfind Hset Hv Hne Heq. unfold update, new_email.
    rewrite Hfind, Hset. simpl.
    assert (Ht : email_taken (normalize_email e) (others i (rows t)) = true).
    { apply email_taken_In, in_map_iff. exists v. split; [exact Heq|].
      now apply In_others. }
    now rewrite Ht.
  - intros e Hfree Hwide. apply email_taken_false in Hfree.
    unfold emails in Hfree.
    set (u := {| id := next_id t; name := None; email := normalize_email e;
                 profile_pic := None; password := None; roles := [];
                 is_staff := is_staff_default |}).
    exists u, {| rows := rows t ++ [u]; next_id := S (next_id t) |}.
    split; [|split; [reflexivity|split; [reflexivity|split; [reflexivity|split; [reflexivity|]]]]].
    + unfold create, insert, only_email. simpl. rewrite Hfree.
      apply store_fits. unfold too_long, fits. simpl.
      rewrite normalize_email_length.
      apply Nat.leb_le in Hwide. now rewrite Hwide.
    + intros e' He'. rewrite He'. now apply find_by_email_last.
Qed.

End Operations.

End UserDirectoryProperties.

(** C7 at the empty directory: an account created for Alice@Example.COM is
    stored under alice@example.com with no name, picture or password, and
    the login finds it under ALICE@example.com. *)
Lemma directory_keeps_user_shape_witness :
  exists u t',
    UserDirectory.create true (UserDirectory.only_email "Alice@Example.COM")
      ModelsUser.empty_table = Py.Return (u, t') /\
    ModelsUser.email u = "alice@example.com" /\
    ModelsUser.name u = None /\ ModelsUser.profile_pic u = None /\
    ModelsUser.password u = None /\
    PasswordLogin.find_by_email
      (PasswordLogin.normalize_email "ALICE@example.com") t' = Some u.
Proof.
  destruct (directory_keeps_user_shape true ModelsUser.empty_table
              (UserDirectory.reachable_empty true))
    as (_ & _ & _ & _ & _ & _ & Hnew).
  destruct (Hnew "Alice@Example.COM") as (u & t' & Hc & He & Hn & Hp & Hw & Hfind).
  - simpl. tauto.
  - apply Nat.leb_le. reflexivity.
  - exists u, t'. split; [exact Hc|]. split; [rewrite He; reflexivity|].
    split; [exact Hn|]. split; [exact Hp|]. split; [exact Hw|].
    apply Hfind. reflexivity.
Defined.


(** * Properties of the application lifespan (src/main.py) *)

Section LifespanClaims.
Import Py MainPy.
Variable Exn : Type.
Variable App : Type.

Lemma try_finally_dispose {A} (body : Action Exn App A) (r : Runtime App) :
  try_finally body engine_dispose r
  = (fst (body r),
     {| engine := Disposed;
        dispose_calls := S (dispose_calls (snd (body r)));
        app := app (snd (body r)) |}).
Proof. unfold try_finally, engine_dispose. destruct (body r); reflexivity. Qed.

(** C9.  However the application ends while the lifespan is suspended at
    its [yield], by returning or by raising, the engine is disposed when
    the lifespan is over: [engine.dispose()] has been called exactly once
    more, the engine is in its disposed state, and the way the application
    ended (the exception, if any) is passed on unchanged. *)
Theorem lifespan_disposes_engine (serving : Action Exn App unit) (r : Runtime App) :
  engine (snd (lifespan serving r)) = Disposed /\
  dispose_calls (snd (lifespan serving r)) = S (dispose_calls (snd (serving r))) /\
  fst (lifespan serving r) = fst (serving r) /\
  (forall e r1, serving r = (Raise e, r1) ->
     lifespan serving r
     = (Raise e, {| engine := Disposed;
                    dispose_calls := S (dispose_calls r1);
                    app := app r1 |})).
Proof.
  unfold lifespan. rewrite try_finally_dispose. simpl.
  repeat split. intros e r1 E. rewrite E. reflexivity.
Qed.

End LifespanClaims.

(** C9 at an application that raises while it serves. *)
Lemma lifespan_disposes_engine_witness :
  MainPy.lifespan
    (fun r : MainPy.Runtime nat => (Py.Raise "connection lost", r))
    {| MainPy.engine := MainPy.Live; MainPy.dispose_calls := 0; MainPy.app := 5%nat |}
  = (Py.Raise "connection lost",
     {| MainPy.engine := MainPy.Disposed; MainPy.dispose_calls := 1;
        MainPy.app := 5%nat |}).
Proof.
  exact (proj2 (proj2 (proj2
           (lifespan_disposes_engine string nat
              (fun r : MainPy.Runtime nat => (Py.Raise "connection lost", r))
              {| MainPy.engine := MainPy.Live; MainPy.dispose_calls := 0;
                 MainPy.app := 5%nat |})))
           "connection lost" _ eq_refl).
Defined.


(** * Properties of the password strategy (specification, section 4.3) *)

Section PasswordLoginClaims.
Import Py Failures ModelsUser PasswordLogin.
Variable verify : string -> string -> bool.

(** The only failure the password strategy ever reports. *)
Lemma password_login_Raise (t : Table) (email_in password_in : string) (f : Failure) :
  password_login verify t email_in password_in = Raise f -> f = InvalidCredentials.
Proof.
  unfold password_login.
  destruct (find_by_email (normalize_email email_in) t) as [u|]; [|congruence].
  destruct (password u) as [h|]; [|congruence].
  destruct (verify password_in h); congruence.
Qed.

(** C5.  Password login fails with the one failure [InvalidCredentials],
    which carries nothing else, in each of the three cases: no user has the
    email, the user has no password hash, the password does not verify.
    So whatever makes a login fail, the caller gets the same result, and a
    login that succeeds returns the user found, whose hash verified. *)
Theorem password_login_failures_alike (t : Table) (email_in password_in : string) :
  (find_by_email (normalize_email email_in) t = None ->
   password_login verify t email_in password_in = Raise InvalidCredentials) /\
  (forall u, find_by_email (normalize_email email_in) t = Some u ->
             password u = None ->
             password_login verify t email_in password_in = Raise InvalidCredentials) /\
  (forall u h, find_by_email (normalize_email email_in) t = Some u ->
               password u = Some h -> verify password_in h = false ->
               password_login verify t email_in password_in = Raise InvalidCredentials) /\
  (forall f, password_login verify t email_in password_in = Raise f ->
             f = InvalidCredentials) /\
  (forall u, password_login verify t email_in password_in = Return u ->
             find_by_email (normalize_email email_in) t = Some u /\
             exists h, password u = Some h /\ verify password_in h = true).
Proof.
  unfold password_login.
  destruct (find_by_email (normalize_email email_in) t) as [u0|].
  - destruct (password u0) as [h0|] eqn:Eh0.
    + destruct (verify password_in h0) eqn:Ev.
      * split; [discriminate|]. split; [intros u E; congruence|].
        split; [intros u h E Eh Ev'; congruence|].
        split; [discriminate|].
        intros u E. inversion E. subst u. split; [reflexivity|]. eauto.
      * split; [discriminate|]. split; [reflexivity|].
        split; [reflexivity|]. split; [congruence|]. discriminate.
    + split; [discriminate|]. split; [reflexivity|].
      split; [reflexivity|]. split; [congruence|]. discriminate.
  - split; [reflexivity|]. split; [discriminate|].
    split; [discriminate|]. split; [congruence|]. discriminate.
Qed.

(** Any two failed logins, whatever the directories, emails and passwords,
    give the caller equal results. *)
Corollary failed_logins_indistinguishable
    (t1 t2 : Table) (e1 p1 e2 p2 : string) (f1 f2 : Failure) :
  password_login verify t1 e1 p1 = Raise f1 ->
  password_login verify t2 e2 p2 = Raise f2 ->
  password_login verify t1 e1 p1 = password_login verify t2 e2 p2.
Proof.
  intros E1 E2. rewrite E1, E2.
  rewrite (password_login_Raise _ _ _ _ E1), (password_login_Raise _ _ _ _ E2).
  reflexivity.
Qed.

End PasswordLoginClaims.

(** C5 at a directory with Ann, who has a password, and Bob, who has none:
    an unknown email, Bob, and Ann with a wrong password all fail alike. *)
Lemma password_login_failures_alike_witness :
  PasswordLogin.password_login Reference.toy_verify Reference.sample_directory
    "nobody@x.com" "pw" = Py.Raise Failures.InvalidCredentials /\
  PasswordLogin.password_login Reference.toy_verify Reference.sample_directory
    "Bob@X.com" "pw" = Py.Raise Failures.InvalidCredentials /\
  PasswordLogin.password_login Reference.toy_verify Reference.sample_directory
    "ann@x.com" "wrong" = Py.Raise Failures.InvalidCredentials.
Proof.
  split; [|split].
  - apply (proj1 (password_login_failures_alike Reference.toy_verify
                    Reference.sample_directory "nobody@x.com" "pw")).
    vm_compute. reflexivity.
  - pose proof (password_login_failures_alike Reference.toy_verify
                  Reference.sample_directory "Bob@X.com" "pw")
      as (_ & Hnohash & _).
    eapply Hnohash; vm_compute; reflexivity.
  - pose proof (password_login_failures_alike Reference.toy_verify
                  Reference.sample_directory "ann@x.com" "wrong")
      as (_ & _ & Hwrong & _).
    eapply Hwrong; vm_compute; reflexivity.
Defined.


(** * Properties of token refresh (specification, sections 4.4 and 5) *)

Section RefreshClaims.
Import Py Failures TokenService.
Variable Token : Type.
Variable sign : Claims -> Token.
Variable verify : Token -> Kind -> outcome TokenErrorKind Claims.
Variable audience : string.
Variable access_minutes refresh_minutes : Z.
Variable now : Z.

Local Abbreviation step_of :=
  (call_step Token sign verify audience access_minutes refresh_minutes now).
Local Abbreviation moves :=
  (sys_step Token sign verify audience access_minutes refresh_minutes now).
Local Abbreviation run :=
  (run_schedule Token sign verify audience access_minutes refresh_minutes now).
Local Abbreviation stage_of := (at_stage Token verify).
Local Abbreviation retired_in := (is_retired Token verify).

(** One step of a call, read as a move between stages. *)
Lemma call_step_advance t st c s :
  stage_of t c s ->
  exists s', stage_of t (snd (step_of st c)) s' /\
             advance s (retired_in t st) s' (retired_in t (fst (step_of st c))).
Proof.
  intros Hs. destruct Hs as [|cl Hv|cl Hv|pair| |k Hv]; simpl.
  - destruct (verify t refresh) as [cl|k] eqn:Ev; simpl.
    + exists AtVerified. split; [now constructor|apply adv_verify].
    + exists AtTokenError. split; [now constructor|apply adv_reject].
  - destruct (decide (rot cl ∈ retired st)) as [Hin|Hnot]; simpl.
    + exists AtReuse. split; [constructor|].
      unfold is_retired. rewrite Hv, bool_decide_eq_true_2 by exact Hin.
      apply adv_lose.
    + exists AtSwapped. split; [now constructor|].
      unfold is_retired. rewrite Hv. simpl.
      rewrite bool_decide_eq_false_2 by exact Hnot.
      rewrite bool_decide_eq_true_2 by set_solver.
      apply adv_win.
  - exists AtSuccess. split; [constructor|]. apply adv_issue.
  - exists AtSuccess. split; [constructor|]. apply adv_stay.
  - exists AtReuse. split; [constructor|]. apply adv_stay.
  - exists AtTokenError. split; [now constructor|]. apply adv_stay.
Qed.

(** Settles a statement about stages and booleans by going through them. *)
Ltac by_cases :=
  repeat match goal with
         | x : stage |- _ => destruct x
         | x : bool |- _ => destruct x
         end;
  cbv; congruence.

Lemma winner_kept_first b s1 s2 s1' b' :
  advance s1 b s1' b' ->
  at_most_one_winner b s1 s2 = true -> at_most_one_winner b' s1' s2 = true.
Proof. intros A; destruct A; by_cases. Qed.

Lemma winner_kept_second b s1 s2 s2' b' :
  advance s2 b s2' b' ->
  at_most_one_winner b s1 s2 = true -> at_most_one_winner b' s1 s2' = true.
Proof. intros A; destruct A; by_cases. Qed.

Lemma retirement_kept_first b s1 s2 s1' b' :
  advance s1 b s1' b' ->
  retired_by_winner b s1 s2 = true -> retired_by_winner b' s1' s2 = true.
Proof. intros A; destruct A; by_cases. Qed.

Lemma retirement_kept_second b s1 s2 s2' b' :
  advance s2 b s2' b' ->
  retired_by_winner b s1 s2 = true -> retired_by_winner b' s1 s2' = true.
Proof. intros A; destruct A; by_cases. Qed.

Lemma tracked_step t s who :
  tracked Token verify t s -> tracked Token verify t (moves s who).
Proof.
  intros (s1 & s2 & H1 & H2 & Hw & Hr). destruct who; unfold sys_step.
  - destruct (call_step_advance t (store s) (first s) s1 H1) as (s1' & H1' & A).
    destruct (step_of (store s) (first s)) as [st' c'] eqn:E. simpl in *.
    exists s1', s2. repeat split; auto.
    + eapply winner_kept_first; eauto.
    + eapply retirement_kept_first; eauto.
  - destruct (call_step_advance t (store s) (second s) s2 H2) as (s2' & H2' & A).
    destruct (step_of (store s) (second s)) as [st' c'] eqn:E. simpl in *.
    exists s1, s2'. repeat split; auto.
    + eapply winner_kept_second; eauto.
    + eapply retirement_kept_second; eauto.
Qed.

Lemma safe_step t s who :
  safe Token verify t s -> safe Token verify t (moves s who).
Proof.
  intros (s1 & s2 & H1 & H2 & Hw). destruct who; unfold sys_step.
  - destruct (call_step_advance t (store s) (first s) s1 H1) as (s1' & H1' & A).
    destruct (step_of (store s) (first s)) as [st' c'] eqn:E. simpl in *.
    exists s1', s2. repeat split; auto. eapply winner_kept_first; eauto.
  - destruct (call_step_advance t (store s) (second s) s2 H2) as (s2' & H2' & A).
    destruct (step_of (store s) (second s)) as [st' c'] eqn:E. simpl in *.
    exists s1, s2'. repeat split; auto. eapply winner_kept_second; eauto.
Qed.

Lemma safe_run t sched s :
  safe Token verify t s -> safe Token verify t (run sched s).
Proof.
  unfold run_schedule. revert s.
  induction sched as [|who sched IH]; simpl; intros s Hs; [exact Hs|].
  apply IH. now apply safe_step.
Qed.

Lemma tracked_run t sched s :
  tracked Token verify t s -> tracked Token verify t (run sched s).
Proof.
  unfold run_schedule. revert s.
  induction sched as [|who sched IH]; simpl; intros s Hs; [exact Hs|].
  apply IH. now apply tracked_step.
Qed.

Lemma safe_start t st : safe Token verify t (concurrent_refresh t st).
Proof.
  exists AtEntry, AtEntry. repeat split; try constructor.
Qed.

Lemma tracked_start t cl st :
  verify t refresh = Return cl -> rot cl ∉ retired st ->
  tracked Token verify t (concurrent_refresh t st).
Proof.
  intros Hv Hnot. exists AtEntry, AtEntry.
  split; [constructor|]. split; [constructor|]. simpl.
  unfold is_retired. rewrite Hv, bool_decide_eq_false_2 by exact Hnot.
  split; reflexivity.
Qed.

Lemma succeeded_stage t c s :
  stage_of t c s -> succeeded c -> s = AtSuccess.
Proof. intros Hs (pair & ->). inversion Hs. reflexivity. Qed.

Lemma finished_stage t cl c s :
  verify t refresh = Return cl -> stage_of t c s -> finished c ->
  (s = AtSuccess /\ succeeded c) \/ (s = AtReuse /\ failed_with ReuseDetected c).
Proof.
  intros Hv Hs (r & ->). inversion Hs; subst.
  - left. split; [reflexivity|]. now eexists.
  - right. split; reflexivity.
  - congruence.
Qed.

(** Each step of a call brings it nearer to its end, whatever the other
    call does to the store in between. *)
Lemma remaining_step st c :
  (remaining Token (snd (step_of st c)) <= pred (remaining Token c))%nat.
Proof.
  destruct c as [t|cl|cl|r]; simpl.
  - destruct (verify t refresh); simpl; lia.
  - destruct (decide (rot cl ∈ retired st)); simpl; lia.
  - lia.
  - lia.
Qed.

Lemma remaining_run sched s :
  (remaining Token (first (run sched s)) <= remaining Token (first s) - turns First sched)%nat /\
  (remaining Token (second (run sched s)) <= remaining Token (second s) - turns Second sched)%nat.
Proof.
  unfold run_schedule. revert s.
  induction sched as [|who sched IH]; simpl; intros s; [lia|].
  specialize (IH (moves s who)). destruct who; unfold sys_step in *; simpl.
  - pose proof (remaining_step (store s) (first s)) as Hstep.
    destruct (step_of (store s) (first s)) as [st' c'] eqn:E. simpl in *. lia.
  - pose proof (remaining_step (store s) (second s)) as Hstep.
    destruct (step_of (store s) (second s)) as [st' c'] eqn:E. simpl in *. lia.
Qed.

Lemma remaining_0_finished (c : Call Token) : remaining Token c = 0%nat -> finished c.
Proof. destruct c; simpl; try discriminate. intros _. now eexists. Qed.

(** Run one after the other, the first [refresh] of a token succeeds and
    the second one finds the identifier retired. *)
Lemma refresh_alone_twice t cl st :
  verify t refresh = Return cl -> rot cl ∉ retired st ->
  exists pair st',
    refresh_alone Token sign verify audience access_minutes refresh_minutes now t st
    = (Some (Return pair), st') /\
    fst (refresh_alone Token sign verify audience access_minutes refresh_minutes
           now t st')
    = Some (Raise ReuseDetected).
Proof.
  intros Hv Hnot. unfold refresh_alone. simpl. rewrite Hv. simpl.
  destruct (decide (rot cl ∈ retired st)) as [Hin|_]; [contradiction|]. simpl.
  do 2 eexists. split; [reflexivity|]. simpl.
  destruct (decide (rot cl ∈ {[rot cl]} ∪ retired st)) as [_|Hout]; [reflexivity|].
  exfalso. apply Hout. set_solver.
Qed.

(** C3.  Two [refresh] calls given the same refresh token and run in any
    interleaving of their steps never both succeed.  When the token
    verifies and its rotation identifier is not yet retired, then once both
    calls are over exactly one has succeeded and the other has failed with
    [ReuseDetected].  A call is over as soon as it has had three turns. *)
Theorem concurrent_refresh_one_winner (t : Token) (st : Store) (sched : list Turn) :
  ~ (succeeded (first (run sched (concurrent_refresh t st))) /\
     succeeded (second (run sched (concurrent_refresh t st)))) /\
  (forall cl,
     verify t refresh = Return cl -> rot cl ∉ retired st ->
     finished (first (run sched (concurrent_refresh t st))) ->
     finished (second (run sched (concurrent_refresh t st))) ->
     (succeeded (first (run sched (concurrent_refresh t st))) /\
      failed_with ReuseDetected (second (run sched (concurrent_refresh t st)))) \/
     (failed_with ReuseDetected (first (run sched (concurrent_refresh t st))) /\
      succeeded (second (run sched (concurrent_refresh t st))))) /\
  ((3 <= turns First sched)%nat ->
   finished (first (run sched (concurrent_refresh t st)))) /\
  ((3 <= turns Second sched)%nat ->
   finished (second (run sched (concurrent_refresh t st)))).
Proof.
  split; [|split; [|split]].
  - intros [W1 W2].
    destruct (safe_run t sched _ (safe_start t st)) as (s1 & s2 & H1 & H2 & Hw).
    rewrite (succeeded_stage _ _ _ H1 W1), (succeeded_stage _ _ _ H2 W2) in Hw.
    destruct (is_retired Token verify t _); discriminate.
  - intros cl Hv Hnot F1 F2.
    destruct (tracked_run t sched _ (tracked_start t cl st Hv Hnot))
      as (s1 & s2 & H1 & H2 & Hw & Hr).
    destruct (finished_stage _ _ _ _ Hv H1 F1) as [[-> S1]|[-> L1]],
             (finished_stage _ _ _ _ Hv H2 F2) as [[-> S2]|[-> L2]]; auto.
    + destruct (is_retired Token verify t _); discriminate.
    + destruct (is_retired Token verify t _); discriminate.
  - intros Hturns. apply remaining_0_finished.
    pose proof (proj1 (remaining_run sched (concurrent_refresh t st))) as Hrem.
    simpl in Hrem. lia.
  - intros Hturns. apply remaining_0_finished.
    pose proof (proj2 (remaining_run sched (concurrent_refresh t st))) as Hrem.
    simpl in Hrem. lia.
Qed.

End RefreshClaims.

(** C3 at a race between two calls over the sample token: one of the two
    succeeds and the other fails with [ReuseDetected]. *)
Lemma concurrent_refresh_one_winner_witness :
  (TokenService.succeeded (TokenService.first Reference.sample_race) /\
   TokenService.failed_with Failures.ReuseDetected
     (TokenService.second Reference.sample_race)) \/
  (TokenService.failed_with Failures.ReuseDetected
     (TokenService.first Reference.sample_race) /\
   TokenService.succeeded (TokenService.second Reference.sample_race)).
Proof.
  pose proof (concurrent_refresh_one_winner TokenService.Claims
                Reference.toy_sign Reference.toy_verify_token
                "fastapi-auth" 30 43200 1000
                Reference.sample_refresh_token Reference.sample_store
                Reference.sample_schedule) as (_ & Hone & F1 & F2).
  apply (Hone Reference.sample_refresh_token).
  - reflexivity.
  - apply not_elem_of_empty.
  - apply F1. vm_compute. lia.
  - apply F2. vm_compute. lia.
Defined.


(** * Further properties of the configuration (src/settings.py) *)

Section SettingsReports.
Import Py Pydantic SettingsPy Report.
Context `{PydanticCore}.

Lemma errors_of_vmap {A B} (f : A -> B) (x : Validated A) :
  errors_of (f <$$> x) = errors_of x.
Proof. destruct x; reflexivity. Qed.

Lemma errors_of_vap {A B} (f : Validated (A -> B)) (x : Validated A) :
  errors_of (f <**> x) = (errors_of f ++ errors_of x)%list.
Proof. destruct f, x; simpl; rewrite ?app_nil_r; reflexivity. Qed.

Lemma proper_vmap {A B} (f : A -> B) (x : Validated A) :
  proper x -> proper (f <$$> x).
Proof. destruct x; simpl; auto. Qed.

Lemma proper_vap {A B} (f : Validated (A -> B)) (x : Validated A) :
  proper f -> proper x -> proper (f <**> x).
Proof.
  destruct f as [g|[|l1 e1]], x as [a|[|l2 e2]]; simpl; auto.
Qed.

(** A validation with no line to report has returned. *)
Lemma proper_no_errors {A} (v : Validated A) :
  proper v -> errors_of v = [] -> exists a, v = Return a.
Proof. destruct v as [a|[|l e]]; simpl; intros P E; eauto; [contradiction|discriminate]. Qed.

Lemma proper_Raise {A} (v : Validated A) e : proper v -> v = Raise e -> e <> [].
Proof. intros P ->. destruct e; [contradiction|discriminate]. Qed.

Lemma errors_of_defaulted {A} w r (parse : string -> option A) ty field d :
  errors_of (defaulted (import_module w r) w parse ty field d)
  = complaint w parse ty field.
Proof.
  unfold defaulted, complaint. rewrite raw_value_import.
  destruct (configured w field) as [v|]; [|reflexivity].
  destruct (parse v); reflexivity.
Qed.

Lemma proper_defaulted {A} imp w (parse : string -> option A) ty field d :
  proper (defaulted imp w parse ty field d).
Proof.
  unfold defaulted. destruct (raw_value imp w field) as [v|]; simpl; auto.
  destruct (parse v); simpl; auto.
Qed.

Lemma errors_of_required_url w r :
  errors_of (required (import_module w r) w as_str value_error "auth_database_url")
  = url_complaint w.
Proof.
  unfold required, url_complaint. rewrite raw_value_import.
  destruct (configured w "auth_database_url"); reflexivity.
Qed.

Lemma proper_required {A} imp w (parse : string -> option A) ty field :
  proper (required imp w parse ty field).
Proof.
  unfold required. destruct (raw_value imp w field) as [v|]; simpl; auto.
  destruct (parse v); simpl; auto.
Qed.

Lemma complaint_as_str w ty field : complaint w as_str ty field = [].
Proof. unfold complaint. destruct (configured w field); reflexivity. Qed.

Lemma complaint_as_opt_str w ty field : complaint w as_opt_str ty field = [].
Proof. unfold complaint. destruct (configured w field); reflexivity. Qed.

Lemma errors_of_startup w r : errors_of (startup w r) = settings_errors w.
Proof.
  rewrite startup_unfold. unfold Settings_init.
  rewrite !errors_of_vap, errors_of_vmap, !errors_of_defaulted,
    errors_of_required_url.
  rewrite !complaint_as_str, !complaint_as_opt_str.
  unfold settings_errors. rewrite ?app_nil_r, <- ?app_assoc. reflexivity.
Qed.

Lemma proper_startup w r : proper (startup w r).
Proof.
  rewrite startup_unfold. unfold Settings_init.
  repeat apply proper_vap; try apply proper_defaulted.
  apply proper_vmap. apply proper_required.
Qed.

(** X1.  When the configuration has been built there was nothing to
    report about it: the database URL is configured and every configured
    value of a typed field converts.  And every field there is something
    to report about, the database URL left out or a typed field given a
    value that does not convert, is named by a line of the
    [ValidationError] that building the configuration ends in: a wrong
    value in one field does not hide another. *)
Theorem startup_reports_every_bad_setting (w : World) (r : list Byte.byte) :
  (forall s, startup w r = Return s -> settings_errors w = []) /\
  (forall field, In field (map fst (settings_errors w)) ->
     exists e, startup w r = Raise e /\ In field (map fst e)).
Proof.
  pose proof (errors_of_startup w r) as E.
  destruct (startup w r) as [s0|e0]; simpl in E.
  - split; [intros; now symmetry|].
    intros field Hin. rewrite <- E in Hin. destruct Hin.
  - split; [discriminate|].
    intros field Hin. exists e0. split; [reflexivity|]. now rewrite E.
Qed.

End SettingsReports.

(** X1 at a configuration with three things wrong: the missing database
    URL does not hide the SMTP port that is no number. *)
Lemma startup_reports_every_bad_setting_witness :
  exists e,
    @SettingsPy.startup Reference.core Samples.broken_world Reference.entropy_a
      = Py.Raise e /\
    In "auth_database_url" (map fst e) /\ In "smtp_port" (map fst e).
Proof.
  pose proof (proj2 (@startup_reports_every_bad_setting Reference.core
                       Samples.broken_world Reference.entropy_a)) as Hnamed.
  destruct (Hnamed "smtp_port") as (e & E & Hport);
    [vm_compute; tauto|].
  destruct (Hnamed "auth_database_url") as (e' & E' & Hurl);
    [vm_compute; tauto|].
  exists e. split; [exact E|]. split; [|exact Hport].
  rewrite E in E'. injection E' as <-. exact Hurl.
Defined.

(** Takes a successful [Settings_init] apart into one equation per field. *)
Ltac each_field E :=
  repeat (apply vap_Return_inv in E;
          let g := fresh "g" in
          let a := fresh "a" in
          let Ea := fresh "Ea" in
          let Ey := fresh "Ey" in
          destruct E as (g & a & E & Ea & Ey));
  apply vmap_Return_inv in E;
  let a := fresh "a" in
  let Ea := fresh "Ea" in
  let Ey := fresh "Ey" in
  destruct E as (a & Ea & Ey);
  subst.

Section SettingsSources.
Import Py Pydantic SettingsPy Report.
Context `{PydanticCore}.

(** [Settings()] depends on the world only through what the sources say
    about each field, and on the import only through the two defaults
    computed there. *)
Lemma Settings_init_ext imp1 w1 imp2 w2 :
  (forall field, raw_value imp1 w1 field = raw_value imp2 w2 field) ->
  encryption_key_default imp1 = encryption_key_default imp2 ->
  templates_dir_default imp1 = templates_dir_default imp2 ->
  Settings_init imp1 w1 = Settings_init imp2 w2.
Proof.
  intros Hraw Hkey Htemplates. unfold Settings_init, required, defaulted.
  rewrite !Hraw, Hkey, Htemplates. reflexivity.
Qed.

(** Two successful constructions that read the same sources agree on every
    field but the encryption key. *)
Lemma Settings_init_agree imp1 imp2 w s1 s2 :
  (forall field, raw_value imp1 w field = raw_value imp2 w field) ->
  templates_dir_default imp1 = templates_dir_default imp2 ->
  Settings_init imp1 w = Return s1 ->
  Settings_init imp2 w = Return s2 ->
  with_encryption_key (encryption_key s2) s1 = s2.
Proof.
  intros Hraw Htemplates E1 E2.
  unfold Settings_init, required, defaulted in E1, E2.
  rewrite !Hraw, Htemplates in E1.
  each_field E1. each_field E2.
  unfold with_encryption_key. simpl. f_equal; congruence.
Qed.

(** X2.  The random bytes a process draws at import decide nothing but the
    default of the encryption key: whether the configuration can be built,
    and what the [ValidationError] says when it cannot, are the same for
    all random bytes, and two successful runs under one configuration
    agree on every setting except, possibly, the encryption key. *)
Theorem random_bytes_only_set_the_key (w : World) (r1 r2 : list Byte.byte) :
  (forall e, startup w r1 = Raise e -> startup w r2 = Raise e) /\
  (forall s1, startup w r1 = Return s1 ->
     exists s2, startup w r2 = Return s2 /\
                with_encryption_key (encryption_key s2) s1 = s2).
Proof.
  pose proof (errors_of_startup w r1) as E1.
  pose proof (errors_of_startup w r2) as E2.
  pose proof (proper_startup w r1) as P1.
  pose proof (proper_startup w r2) as P2.
  pose proof (startup_unfold w r1) as U1.
  pose proof (startup_unfold w r2) as U2.
  destruct (startup w r1) as [s1|e1], (startup w r2) as [s2|e2];
    simpl in E1, E2, P1, P2.
  - split; [discriminate|]. intros s Hs. injection Hs as <-.
    exists s2. split; [reflexivity|].
    eapply (Settings_init_agree (import_module w r1) (import_module w r2) w);
      [reflexivity|reflexivity|now symmetry|now symmetry].
  - exfalso. rewrite E2, <- E1 in P2. exact P2.
  - exfalso. rewrite E1, <- E2 in P1. exact P1.
  - split; [|discriminate]. intros e He. injection He as <-. congruence.
Qed.










(** X6.  Once [get_settings()] has returned settings, every later call in
    the process returns those same settings, whatever has become of the
    environment and the dotenv file in the meantime.  A call that raised
    left nothing in the cache, so the next call reads the configuration
    anew. *)
Theorem settings_are_read_once
    (imp : Imported) (w : World) (worlds : list World) (cache : option Settings) :
  (forall s, get_settings imp w None = (Return s, cache) ->
             Forall (fun result => result = Return s) (calls imp worlds cache)) /\
  (forall e, get_settings imp w None = (Raise e, cache) ->
             calls imp worlds cache = calls imp worlds None).
Proof.
  split.
  - intros s E.
    assert (Hc : cache = Some s).
    { unfold get_settings in E. destruct (Settings_init imp w); inversion E.
      reflexivity. }
    subst cache. clear E. induction worlds as [|w' rest IH]; simpl.
    + constructor.
    + constructor; [reflexivity|exact IH].
  - intros e E. unfold get_settings in E.
    destruct (Settings_init imp w); inversion E. reflexivity.
Qed.

End SettingsSources.

(** X2 at the deployment that sets the database URL only. *)
Lemma random_bytes_only_set_the_key_witness :
  exists s1 s2,
    @SettingsPy.startup Reference.core Reference.bare_world Reference.entropy_a
      = Py.Return s1 /\
    @SettingsPy.startup Reference.core Reference.bare_world Reference.entropy_b
      = Py.Return s2 /\
    Report.with_encryption_key (SettingsPy.encryption_key s2) s1 = s2.
Proof.
  destruct (@SettingsPy.startup Reference.core Reference.bare_world
              Reference.entropy_a) as [s1|e] eqn:E1;
    [|vm_compute in E1; discriminate].
  destruct (proj2 (@random_bytes_only_set_the_key Reference.core
                     Reference.bare_world Reference.entropy_a
                     Reference.entropy_b) s1 E1) as (s2 & E2 & Hs).
  exists s1, s2. auto.
Defined.



(** X6: settings read under one environment stay as they are when the
    environment is emptied and then broken. *)
Lemma settings_are_read_once_witness :
  exists s cache,
    @SettingsPy.get_settings Reference.core
      (SettingsPy.import_module Reference.bare_world Reference.entropy_a)
      Reference.bare_world None = (Py.Return s, cache) /\
    Forall (fun result => result = Py.Return s)
      (@Report.calls Reference.core
         (SettingsPy.import_module Reference.bare_world Reference.entropy_a)
         [Reference.empty_world; Samples.broken_world] cache).
Proof.
  do 2 eexists. split; [vm_compute; reflexivity|].
  apply (proj1 (@settings_are_read_once Reference.core
                  (SettingsPy.import_module Reference.bare_world Reference.entropy_a)
                  Reference.bare_world
                  [Reference.empty_world; Samples.broken_world] _)).
  vm_compute. reflexivity.
Defined.


(** * Further properties of the wire schemas (src/schemas/user.py) *)

Section SchemaReports.
Import Py Pydantic SchemasUser Report SchemaReport.

Lemma str_field_Return d name s :
  str_field d name = Return s <-> d !! name = Some (JStr s).
Proof.
  unfold str_field. destruct (d !! name) as [[]|]; split; intros E;
    try discriminate; inversion E; reflexivity.
Qed.

Lemma nullable_str_field_Return d name o :
  nullable_str_field d name = Return o <-> d !! name = Some (json_of_optional o).
Proof.
  unfold nullable_str_field, json_of_optional.
  destruct (d !! name) as [[]|], o; split; intros E;
    try discriminate; inversion E; reflexivity.
Qed.

Lemma errors_of_str_field d name :
  errors_of (str_field d name) = field_errors d (name, false).
Proof.
  unfold str_field, field_errors. simpl. destruct (d !! name) as [[]|]; reflexivity.
Qed.

Lemma errors_of_nullable_str_field d name :
  errors_of (nullable_str_field d name) = field_errors d (name, true).
Proof.
  unfold nullable_str_field, field_errors. simpl.
  destruct (d !! name) as [[]|]; reflexivity.
Qed.

(** Two results of a constructor applied under validation. *)
Lemma vap_Return_iff {A B} (f : Validated (A -> B)) (x : Validated A) (y : B) :
  f <**> x = Return y <-> exists g a, f = Return g /\ x = Return a /\ y = g a.
Proof.
  split; [apply vap_Return_inv|]. intros (g & a & -> & -> & ->). reflexivity.
Qed.

Lemma vmap_Return_iff {A B} (f : A -> B) (x : Validated A) (y : B) :
  f <$$> x = Return y <-> exists a, x = Return a /\ y = f a.
Proof.
  split; [apply vmap_Return_inv|]. intros (a & -> & ->). reflexivity.
Qed.

(** X7.  Validation hands back what the payload holds and nothing else: a
    schema object is returned exactly when every declared key of the
    payload holds that object's value for it, a string for a string and
    null for [None].  Nothing is converted, trimmed or defaulted on the
    way. *)
Theorem validation_returns_the_payload (members : list (string * json)) :
  (forall t,
     UserPasswordLoginSchema.validate (JDict members) = Return t <->
     as_dict members !! "email" = Some (JStr (UserPasswordLoginSchema.email t)) /\
     as_dict members !! "password"
     = Some (json_of_optional (UserPasswordLoginSchema.password t))) /\
  (forall t,
     UserSignupSchema.validate (JDict members) = Return t <->
     as_dict members !! "email" = Some (JStr (UserSignupSchema.email t)) /\
     as_dict members !! "password"
     = Some (json_of_optional (UserSignupSchema.password t)) /\
     as_dict members !! "name" = Some (json_of_optional (UserSignupSchema.name t)) /\
     as_dict members !! "profile_pic"
     = Some (json_of_optional (UserSignupSchema.profile_pic t))) /\
  (forall t,
     UserJWTResponseSchema.validate (JDict members) = Return t <->
     as_dict members !! "access_token"
     = Some (JStr (UserJWTResponseSchema.access_token t)) /\
     as_dict members !! "refresh_token"
     = Some (JStr (UserJWTResponseSchema.refresh_token t))) /\
  (forall t,
     UserSocialLoginSchema.validate (JDict members) = Return t <->
     as_dict members !! "provider" = Some (JStr (UserSocialLoginSchema.provider t)) /\
     as_dict members !! "access_token"
     = Some (json_of_optional (UserSocialLoginSchema.access_token t)) /\
     as_dict members !! "code"
     = Some (json_of_optional (UserSocialLoginSchema.code t))) /\
  (forall t,
     UserSignupResponseSchema.validate (JDict members) = Return t <->
     as_dict members !! "access_token"
     = Some (json_of_optional (UserSignupResponseSchema.access_token t)) /\
     as_dict members !! "refresh_token"
     = Some (json_of_optional (UserSignupResponseSchema.refresh_token t)) /\
     as_dict members !! "message"
     = Some (JStr (UserSignupResponseSchema.message t))).
Proof.
  split; [|split; [|split; [|split]]]; intros t; destruct t; simpl;
    unfold UserPasswordLoginSchema.validate, UserSignupSchema.validate,
      UserJWTResponseSchema.validate, UserSocialLoginSchema.validate,
      UserSignupResponseSchema.validate, model_validate,
      UserPasswordLoginSchema.fields, UserSignupSchema.fields,
      UserJWTResponseSchema.fields, UserSocialLoginSchema.fields,
      UserSignupResponseSchema.fields;
    rewrite <- ?str_field_Return, <- ?nullable_str_field_Return;
    (split;
     [ intros E;
       repeat (apply vap_Return_inv in E; destruct E as (? & ? & E & ? & ?));
       apply vmap_Return_inv in E; destruct E as (? & ? & ?);
       subst; simpl in *;
       repeat match goal with
              | H : _ _ = _ _ |- _ => injection H; clear H; intros; subst
              end;
       auto
     | intros E;
       repeat match goal with
              | H : _ /\ _ |- _ => destruct H
              end;
       repeat match goal with
              | H : _ = Return _ |- _ => rewrite H; clear H
              end;
       reflexivity ]).
Qed.

End SchemaReports.

Section SchemaErrors.
Import Py Pydantic SchemasUser Report SchemaReport.

Lemma errors_of_parse sc members :
  errors_of (parse sc (JDict members))
  = flat_map (field_errors (as_dict members)) (declared sc).
Proof.
  destruct sc; simpl;
    unfold UserPasswordLoginSchema.validate, UserSignupSchema.validate,
      UserJWTResponseSchema.validate, UserSocialLoginSchema.validate,
      UserSignupResponseSchema.validate, model_validate,
      UserPasswordLoginSchema.fields, UserSignupSchema.fields,
      UserJWTResponseSchema.fields, UserSocialLoginSchema.fields,
      UserSignupResponseSchema.fields;
    rewrite ?errors_of_vmap, ?errors_of_vap, ?errors_of_vmap,
      ?errors_of_str_field, ?errors_of_nullable_str_field;
    rewrite ?app_nil_r, <- ?app_assoc; reflexivity.
Qed.

(** X8.  A payload that is an object fails validation with one line for
    each declared field that is absent ([missing]) or holds something that
    is no string ([string_type], null included where the field is not
    marked optional), in the order the schema declares its fields; a fault
    in one field never hides a fault in another.  A payload that is not an
    object fails with the single line [model_type]. *)
Theorem validation_reports_every_field (sc : schema) (input : json) :
  match input with
  | JDict members =>
      errors_of (parse sc input)
      = flat_map (field_errors (as_dict members)) (declared sc)
  | _ => parse sc input = Raise [("", model_type)]
  end.
Proof.
  destruct input; try (destruct sc; reflexivity). apply errors_of_parse.
Qed.

(** Validation looks at the declared keys only. *)
Lemma parse_ext sc m1 m2 :
  (forall name nullable, In (name, nullable) (declared sc) ->
                         as_dict m1 !! name = as_dict m2 !! name) ->
  parse sc (JDict m1) = parse sc (JDict m2).
Proof.
  intros Hsame. destruct sc; simpl;
    unfold UserPasswordLoginSchema.validate, UserSignupSchema.validate,
      UserJWTResponseSchema.validate, UserSocialLoginSchema.validate,
      UserSignupResponseSchema.validate, model_validate,
      UserPasswordLoginSchema.fields, UserSignupSchema.fields,
      UserJWTResponseSchema.fields, UserSocialLoginSchema.fields,
      UserSignupResponseSchema.fields, str_field, nullable_str_field;
    repeat match goal with
           | |- context [as_dict m1 !! ?name] =>
               rewrite (Hsame name false) by (simpl; tauto)
           | |- context [as_dict m1 !! ?name] =>
               rewrite (Hsame name true) by (simpl; tauto)
           end;
    reflexivity.
Qed.

Lemma as_dict_snoc members k v :
  as_dict (members ++ [(k, v)]) = <[k := v]> (as_dict members).
Proof. unfold as_dict. rewrite foldl_app. reflexivity. Qed.

(** X9.  Keys the schema does not declare are ignored: adding to a payload
    a member under any other name, whatever its value, changes neither
    whether validation succeeds nor the object or the error lines it
    gives. *)
Theorem undeclared_keys_are_ignored
    (sc : schema) (members : list (string * json)) (k : string) (v : json) :
  (forall nullable, ~ In (k, nullable) (declared sc)) ->
  parse sc (JDict (members ++ [(k, v)])) = parse sc (JDict members).
Proof.
  intros Hnot. apply parse_ext. intros name nullable Hin.
  rewrite as_dict_snoc. apply lookup_insert_ne.
  intros ->. exact (Hnot _ Hin).
Qed.

(** X10.  Every payload that validates as a signup also validates as a
    password login, and the login it gives carries the signup's email and
    password. *)
Theorem signup_payload_is_a_login_payload (input : json) (t : UserSignupSchema.t) :
  UserSignupSchema.validate input = Return t ->
  UserPasswordLoginSchema.validate input
  = Return {| UserPasswordLoginSchema.email := UserSignupSchema.email t;
              UserPasswordLoginSchema.password := UserSignupSchema.password t |}.
Proof.
  destruct input as [| | | | |members]; try discriminate.
  unfold UserSignupSchema.validate, UserPasswordLoginSchema.validate,
    model_validate, UserSignupSchema.fields, UserPasswordLoginSchema.fields.
  intros E.
  repeat (apply vap_Return_inv in E; destruct E as (? & ? & E & ? & ?)).
  apply vmap_Return_inv in E. destruct E as (? & ? & ?). subst. simpl.
  repeat match goal with
         | H : _ = Return _ |- _ => rewrite ?H; clear H
         end.
  reflexivity.
Qed.

End SchemaErrors.

(** X9: a login payload with a stray [is_staff] member. *)
Lemma undeclared_keys_are_ignored_witness :
  SchemaReport.parse SchemasUser.PasswordLogin
    (SchemasUser.JDict ([("email", SchemasUser.JStr "a@x.com");
                         ("password", SchemasUser.JStr "pw")]
                        ++ [("is_staff", SchemasUser.JBool true)]))
  = SchemaReport.parse SchemasUser.PasswordLogin
      (SchemasUser.JDict [("email", SchemasUser.JStr "a@x.com");
                          ("password", SchemasUser.JStr "pw")]).
Proof.
  apply undeclared_keys_are_ignored.
  intros nullable [E|[E|[]]]; discriminate.
Defined.

(** X10 at a signup payload with a name and no picture. *)
Lemma signup_payload_is_a_login_payload_witness :
  SchemasUser.UserPasswordLoginSchema.validate
    (SchemasUser.JDict [("email", SchemasUser.JStr "a@x.com");
                        ("password", SchemasUser.JStr "pw");
                        ("name", SchemasUser.JStr "Ann");
                        ("profile_pic", SchemasUser.JNull)])
  = Py.Return
      {| SchemasUser.UserPasswordLoginSchema.email := "a@x.com";
         SchemasUser.UserPasswordLoginSchema.password := Some "pw" |}.
Proof.
  exact (signup_payload_is_a_login_payload
           (SchemasUser.JDict [("email", SchemasUser.JStr "a@x.com");
                               ("password", SchemasUser.JStr "pw");
                               ("name", SchemasUser.JStr "Ann");
                               ("profile_pic", SchemasUser.JNull)])
           {| SchemasUser.UserSignupSchema.email := "a@x.com";
              SchemasUser.UserSignupSchema.password := Some "pw";
              SchemasUser.UserSignupSchema.name := Some "Ann";
              SchemasUser.UserSignupSchema.profile_pic := None |}
           eq_refl).
Defined.


(** * The generated encryption key (src/settings.py, line 29) *)

Section GeneratedKey.
Import Py SettingsPy Base64.

(** A fact checked on every number below [n] holds of each of them. *)
Lemma below_all (p : N -> bool) (n : nat) :
  forallb p (below n) = true -> forall x, (x < N.of_nat n)%N -> p x = true.
Proof.
  intros Hall x Hx. rewrite forallb_forall in Hall. apply Hall.
  unfold below. apply in_map_iff. exists (N.to_nat x).
  split; [apply N2Nat.id|]. apply in_seq. lia.
Qed.

Lemma byte_below (a : Byte.byte) : (Byte.to_N a < N.of_nat 256)%N.
Proof. pose proof (Byte.to_N_bounded a). lia. Qed.

Lemma bytes_all (p : N -> bool) :
  forallb p (below 256) = true -> forall a, p (Byte.to_N a) = true.
Proof. intros Hall a. apply (below_all p 256 Hall), byte_below. Qed.

Lemma bytes_all2 (p : N -> N -> bool) :
  forallb (fun x => forallb (p x) (below 256)) (below 256) = true ->
  forall a b, p (Byte.to_N a) (Byte.to_N b) = true.
Proof.
  intros Hall a b.
  pose proof (below_all _ 256 Hall (Byte.to_N a) (byte_below a)) as Ha.
  simpl in Ha. apply (below_all _ 256 Ha), byte_below.
Qed.

Lemma sextet_ok_spec s :
  sextet_ok s = true ->
  b64_value (b64_char s) = Some s /\ Ascii.eqb (b64_char s) "=" = false.
Proof.
  unfold sextet_ok. destruct (b64_value (b64_char s)) as [v|]; [|discriminate].
  intros E. apply andb_true_iff in E as [Ev Ep].
  apply N.eqb_eq in Ev. apply negb_true_iff in Ep. now subst.
Qed.

Lemma sextet0_ok a : sextet_ok (sextet0 (Byte.to_N a)) = true.
Proof. apply (bytes_all (fun x => sextet_ok (sextet0 x))). vm_compute. reflexivity. Qed.

Lemma sextet1_ok a b : sextet_ok (sextet1 (Byte.to_N a) (Byte.to_N b)) = true.
Proof.
  apply (bytes_all2 (fun x y => sextet_ok (sextet1 x y))). vm_compute. reflexivity.
Qed.

Lemma sextet2_ok b c : sextet_ok (sextet2 (Byte.to_N b) (Byte.to_N c)) = true.
Proof.
  apply (bytes_all2 (fun x y => sextet_ok (sextet2 x y))). vm_compute. reflexivity.
Qed.

Lemma sextet3_ok c : sextet_ok (sextet3 (Byte.to_N c)) = true.
Proof. apply (bytes_all (fun x => sextet_ok (sextet3 x))). vm_compute. reflexivity. Qed.

(** The last sextet of a one-byte and of a two-byte group. *)
Lemma sextet1_alone_ok a : sextet_ok (N.shiftl (N.land (Byte.to_N a) 3) 4) = true.
Proof.
  apply (bytes_all (fun x => sextet_ok (N.shiftl (N.land x 3) 4))).
  vm_compute. reflexivity.
Qed.

Lemma sextet2_alone_ok b : sextet_ok (N.shiftl (N.land (Byte.to_N b) 15) 2) = true.
Proof.
  apply (bytes_all (fun x => sextet_ok (N.shiftl (N.land x 15) 2))).
  vm_compute. reflexivity.
Qed.

Lemma first_byte_back a b :
  first_byte (sextet0 (Byte.to_N a)) (sextet1 (Byte.to_N a) (Byte.to_N b))
  = Byte.to_N a.
Proof.
  apply N.eqb_eq.
  apply (bytes_all2 (fun x y => N.eqb (first_byte (sextet0 x) (sextet1 x y)) x)).
  vm_compute. reflexivity.
Qed.

Lemma first_byte_back_alone a :
  first_byte (sextet0 (Byte.to_N a)) (N.shiftl (N.land (Byte.to_N a) 3) 4)
  = Byte.to_N a.
Proof.
  apply N.eqb_eq.
  apply (bytes_all (fun x => N.eqb (first_byte (sextet0 x) (N.shiftl (N.land x 3) 4)) x)).
  vm_compute. reflexivity.
Qed.

Lemma sextet1_low a b :
  N.land (sextet1 (Byte.to_N a) (Byte.to_N b)) 15 = N.shiftr (Byte.to_N b) 4.
Proof.
  apply N.eqb_eq.
  apply (bytes_all2 (fun x y => N.eqb (N.land (sextet1 x y) 15) (N.shiftr y 4))).
  vm_compute. reflexivity.
Qed.

Lemma second_byte_from b c s1 :
  N.land s1 15 = N.shiftr (Byte.to_N b) 4 ->
  second_byte s1 (sextet2 (Byte.to_N b) (Byte.to_N c)) = Byte.to_N b.
Proof.
  intros Hlow. unfold second_byte. rewrite Hlow.
  apply N.eqb_eq.
  apply (bytes_all2
           (fun x y => N.eqb (N.lor (N.shiftl (N.shiftr x 4) 4)
                                     (N.shiftr (sextet2 x y) 2)) x)).
  vm_compute. reflexivity.
Qed.

Lemma second_byte_from_alone b s1 :
  N.land s1 15 = N.shiftr (Byte.to_N b) 4 ->
  second_byte s1 (N.shiftl (N.land (Byte.to_N b) 15) 2) = Byte.to_N b.
Proof.
  intros Hlow. unfold second_byte. rewrite Hlow.
  apply N.eqb_eq.
  apply (bytes_all
           (fun x => N.eqb (N.lor (N.shiftl (N.shiftr x 4) 4)
                                   (N.shiftr (N.shiftl (N.land x 15) 2) 2)) x)).
  vm_compute. reflexivity.
Qed.

Lemma third_byte_back b c :
  third_byte (sextet2 (Byte.to_N b) (Byte.to_N c)) (sextet3 (Byte.to_N c))
  = Byte.to_N c.
Proof.
  apply N.eqb_eq.
  apply (bytes_all2 (fun x y => N.eqb (third_byte (sextet2 x y) (sextet3 y)) y)).
  vm_compute. reflexivity.
Qed.

(** Lists three elements at a time. *)
Lemma list_ind3 {A} (P : list A -> Prop) :
  P [] -> (forall a, P [a]) -> (forall a b, P [a; b]) ->
  (forall a b c l, P l -> P (a :: b :: c :: l)) ->
  forall l, P l.
Proof.
  intros H0 H1 H2 H3.
  assert (Hall : forall l, P l /\ (forall a, P (a :: l)) /\
                           (forall a b, P (a :: b :: l))).
  { induction l as [|x l (IH0 & IH1 & IH2)]; [now auto|].
    split; [apply IH1|]. split; [intros a; apply IH2|].
    intros a b. now apply H3. }
  intros l. apply Hall.
Qed.

(** What [urlsafe_b64encode] writes decodes to the bytes it was given. *)
Lemma urlsafe_b64decode_encode bs :
  urlsafe_b64decode (urlsafe_b64encode bs) = Some bs.
Proof.
  induction bs as [|a|a b|a b c l IH] using list_ind3.
  - reflexivity.
  - cbn [urlsafe_b64encode urlsafe_b64decode].
    fold (sextet0 (Byte.to_N a)).
    destruct (sextet_ok_spec _ (sextet0_ok a)) as [-> _].
    destruct (sextet_ok_spec _ (sextet1_alone_ok a)) as [-> _].
    rewrite first_byte_back_alone, Byte.of_to_N. reflexivity.
  - cbn [urlsafe_b64encode urlsafe_b64decode].
    fold (sextet0 (Byte.to_N a)). fold (sextet1 (Byte.to_N a) (Byte.to_N b)).
    destruct (sextet_ok_spec _ (sextet0_ok a)) as [-> _].
    destruct (sextet_ok_spec _ (sextet1_ok a b)) as [-> _].
    destruct (sextet_ok_spec _ (sextet2_alone_ok b)) as [-> ->].
    rewrite first_byte_back, Byte.of_to_N.
    rewrite (second_byte_from_alone b _ (sextet1_low a b)), Byte.of_to_N.
    reflexivity.
  - cbn [urlsafe_b64encode urlsafe_b64decode].
    fold (sextet0 (Byte.to_N a)). fold (sextet1 (Byte.to_N a) (Byte.to_N b)).
    fold (sextet2 (Byte.to_N b) (Byte.to_N c)). fold (sextet3 (Byte.to_N c)).
    destruct (sextet_ok_spec _ (sextet0_ok a)) as [-> _].
    destruct (sextet_ok_spec _ (sextet1_ok a b)) as [-> _].
    destruct (sextet_ok_spec _ (sextet2_ok b c)) as [-> ->].
    destruct (sextet_ok_spec _ (sextet3_ok c)) as [-> ->].
    rewrite first_byte_back, Byte.of_to_N.
    rewrite (second_byte_from b c _ (sextet1_low a b)), Byte.of_to_N.
    rewrite third_byte_back, Byte.of_to_N, IH. reflexivity.
Qed.

Lemma urlsafe_b64encode_length bs :
  String.length (urlsafe_b64encode bs) = (4 * ((List.length bs + 2) / 3))%nat.
Proof.
  induction bs as [|a|a b|a b c l IH] using list_ind3; try reflexivity.
  cbn [urlsafe_b64encode String.length List.length]. rewrite IH.
  replace (S (S (S (List.length l))) + 2)%nat
    with (List.length l + 2 + 1 * 3)%nat by lia.
  rewrite Nat.div_add by lia. lia.
Qed.

(** X16.  The key generated when none is configured is 44 characters of
    URL-safe base64 for the 32 random bytes of the process, and it
    determines those bytes: two runs under a configuration that does not
    set the encryption key have the same key exactly when they drew the
    same random bytes. *)
Theorem generated_key_is_the_random_bytes `{PydanticCore}
    (w : World) (r1 r2 : list Byte.byte) (s1 s2 : Settings) :
  configured w "encryption_key" = None ->
  startup w r1 = Return s1 ->
  startup w r2 = Return s2 ->
  (List.length r1 = 32%nat -> String.length (encryption_key s1) = 44%nat) /\
  urlsafe_b64decode (encryption_key s1) = Some r1 /\
  (encryption_key s1 = encryption_key s2 <-> r1 = r2).
Proof.
  intros Hnone E1 E2.
  apply startup_fields in E1 as (_ & _ & _ & K1).
  apply startup_fields in E2 as (_ & _ & _ & K2).
  apply defaulted_Return in K1. apply defaulted_Return in K2.
  rewrite Hnone in K1, K2. rewrite K1, K2. unfold Fernet_generate_key.
  split; [|split].
  - intros Hlen. rewrite urlsafe_b64encode_length, Hlen. reflexivity.
  - apply urlsafe_b64decode_encode.
  - split; [|now intros ->]. intros Heq.
    pose proof (urlsafe_b64decode_encode r1) as D1.
    rewrite Heq, urlsafe_b64decode_encode in D1. now inversion D1.
Qed.

End GeneratedKey.

(** X16 at the deployment that sets the database URL only. *)
Lemma generated_key_is_the_random_bytes_witness :
  exists s1 s2,
    @SettingsPy.startup Reference.core Reference.bare_world Reference.entropy_a
      = Py.Return s1 /\
    @SettingsPy.startup Reference.core Reference.bare_world Reference.entropy_b
      = Py.Return s2 /\
    String.length (SettingsPy.encryption_key s1) = 44%nat /\
    Base64.urlsafe_b64decode (SettingsPy.encryption_key s1)
    = Some Reference.entropy_a.
Proof.
  destruct (@SettingsPy.startup Reference.core Reference.bare_world
              Reference.entropy_a) as [s1|e] eqn:E1;
    [|vm_compute in E1; discriminate].
  destruct (@SettingsPy.startup Reference.core Reference.bare_world
              Reference.entropy_b) as [s2|e] eqn:E2;
    [|vm_compute in E2; discriminate].
  destruct (@generated_key_is_the_random_bytes Reference.core
              Reference.bare_world Reference.entropy_a Reference.entropy_b
              s1 s2 eq_refl E1 E2) as (Hlen & Hdec & _).
  exists s1, s2. repeat split; auto.
Defined.


(** * What the configuration does not ask for (src/settings.py) *)

Section OptionalMailSettings.
Import Py Pydantic SettingsPy Report.
Context `{PydanticCore}.

Lemma complaint_not_missing {A} w (parse : string -> option A) ty field name :
  ty <> missing -> ~ In (name, missing) (complaint w parse ty field).
Proof.
  intros Hty. unfold complaint. destruct (configured w field) as [v|]; [|auto].
  destruct (parse v); [auto|]. intros [E|[]]. inversion E. congruence.
Qed.

Lemma startup_mail_fields w r s :
  startup w r = Return s ->
  defaulted (import_module w r) w as_opt_str value_error "smtp_host" None
  = Return (smtp_host s) /\
  defaulted (import_module w r) w as_opt_int int_parsing "smtp_port" None
  = Return (smtp_port s) /\
  defaulted (import_module w r) w as_opt_str value_error
    "azure_email_service_endpoint" None
  = Return (azure_email_service_endpoint s) /\
  defaulted (import_module w r) w as_opt_str value_error
    "azure_email_service_api_key" None
  = Return (azure_email_service_api_key s).
Proof.
  rewrite startup_unfold. unfold Settings_init. intros E.
  each_field E. simpl. auto.
Qed.

(** X17.  The configuration never insists on a mail setting: the only
    field a [ValidationError] can report as missing is the database URL,
    and a configuration that is built without an SMTP host or port, or
    without the Azure endpoint or key, simply holds [None] there, whichever
    mail backend is selected (smtp, the default, included). *)
Theorem mail_settings_are_never_required (w : World) (r : list Byte.byte) :
  (forall e name, startup w r = Raise e -> In (name, missing) e ->
                  name = "auth_database_url") /\
  (forall s, startup w r = Return s ->
     (configured w "smtp_host" = None -> smtp_host s = None) /\
     (configured w "smtp_port" = None -> smtp_port s = None) /\
     (configured w "azure_email_service_endpoint" = None ->
      azure_email_service_endpoint s = None) /\
     (configured w "azure_email_service_api_key" = None ->
      azure_email_service_api_key s = None)).
Proof.
  split.
  - intros e name E Hin.
    pose proof (errors_of_startup w r) as Herr.
    destruct (startup w r) as [s0|e0]; [discriminate|]. injection E as ->.
    simpl in Herr. rewrite Herr in Hin. unfold settings_errors in Hin.
    rewrite !in_app_iff in Hin.
    repeat match goal with
           | H : _ \/ _ |- _ => destruct H as [H|H]
           end;
      try (exfalso; revert Hin; apply complaint_not_missing; discriminate).
    unfold url_complaint in Hin.
    destruct (configured w "auth_database_url"); [destruct Hin|].
    destruct Hin as [Hin|[]]. now inversion Hin.
  - intros s E. apply startup_mail_fields in E as (Hh & Hp & He & Hk).
    apply defaulted_Return in Hh, Hp, He, Hk.
    repeat split; intros Hnone.
    + now rewrite Hnone in Hh.
    + now rewrite Hnone in Hp.
    + now rewrite Hnone in He.
    + now rewrite Hnone in Hk.
Qed.

End OptionalMailSettings.

(** X17 at the deployment that sets the database URL only: the backend is
    smtp and there is no host to send through. *)
Lemma mail_settings_are_never_required_witness :
  exists s,
    @SettingsPy.startup Reference.core Reference.bare_world Reference.entropy_a
      = Py.Return s /\
    SettingsPy.email_backend s = SettingsPy.smtp /\
    SettingsPy.smtp_host s = None.
Proof.
  destruct (@SettingsPy.startup Reference.core Reference.bare_world
              Reference.entropy_a) as [s|e] eqn:E;
    [|vm_compute in E; discriminate].
  destruct (proj2 (@mail_settings_are_never_required Reference.core
                     Reference.bare_world Reference.entropy_a) s E)
    as (Hhost & _).
  exists s. split; [reflexivity|]. split.
  - vm_compute in E. injection E as <-. reflexivity.
  - apply Hhost. vm_compute. reflexivity.
Defined.
